(** * Cartographer: the dependency graph engine

    A shallow embedding of [plugins/cartographer/scripts/dependency_graph.py]
    and the properties of its module-identity resolver, import extractors,
    graph builder, cycle detector, diagram renderer and connectivity report.

    Conventions of the embedding.
    - A Python [str] is a [string]; its characters are the code points below
      256 (the [ascii] type), so [\s] and [\w] are the Unicode classes cut to
      that range.
    - A [pathlib.Path] is the list of its [parts].
    - A raised exception is the [Raise] branch of [result].
    - A Python [set] of strings is a duplicate-free list in insertion order;
      the order in which the interpreter iterates over it is a parameter
      ([set_iter]) of the functions that iterate over a set they have built.
    - A Python [dict] is an association list in insertion order.
    - The file system is a function from paths to the text read, [None] when
      [open] or [read] raises. *)

From Stdlib Require Import String Ascii List ZArith Lia Bool Arith PeanoNat.
From Stdlib Require Import DecimalString DecimalNat Sorted Permutation FinFun.
Import ListNotations.

Open Scope string_scope.
Open Scope list_scope.

(* ================================================================= *)
(** ** Python values: exceptions, strings, dictionaries *)

Inductive exn : Type :=
| ValueError
| IndexError.

Inductive result (A : Type) : Type :=
| Ok (a : A)
| Raise (e : exn).

Arguments Ok {A} a.
Arguments Raise {A} e.

Definition bind {A B : Type} (m : result A) (f : A -> result B) : result B :=
  match m with
  | Ok a => f a
  | Raise e => Raise e
  end.

Notation "x <- m ;; k" := (bind m (fun x => k))
  (at level 61, m at next level, right associativity).

(** A [for] loop whose body may raise: the state is threaded left to right and
    the first exception leaves the loop. *)
Fixpoint for_each {A S : Type} (body : S -> A -> result S) (l : list A) (s : S)
  : result S :=
  match l with
  | [] => Ok s
  | x :: l' => s' <- body s x ;; for_each body l' s'
  end.

Module Py.

Definition nl : ascii := "010"%char.
Definition dquote : ascii := "034"%char.
Definition squote : ascii := "039"%char.

(** [s.endswith(suffix)] *)
Definition endswith (s suffix : string) : bool :=
  (String.length suffix <=? String.length s)%nat
  && (substring (String.length s - String.length suffix)
                (String.length suffix) s =? suffix)%string.

(** [s.startswith(p)] *)
Definition startswith (s p : string) : bool := prefix p s.

(** [s.split(sep)] for a one-character separator; never empty. *)
Fixpoint split (sep : ascii) (s : string) : list string :=
  match s with
  | EmptyString => [EmptyString]
  | String c s' =>
      if (c =? sep)%char then EmptyString :: split sep s'
      else match split sep s' with
           | [] => [String c EmptyString]
           | h :: t => String c h :: t
           end
  end.

(** The text before the last [sep], when [sep] occurs. *)
Fixpoint before_last (sep : ascii) (s : string) : option string :=
  match s with
  | EmptyString => None
  | String c s' =>
      match before_last sep s' with
      | Some r => Some (String c r)
      | None => if (c =? sep)%char then Some EmptyString else None
      end
  end.

(** [s.rsplit(sep, 1)[0]] *)
Definition rsplit1_head (sep : ascii) (s : string) : string :=
  match before_last sep s with
  | Some r => r
  | None => s
  end.

(** [sep.join(parts)] *)
Definition join (sep : string) (parts : list string) : string :=
  String.concat sep parts.

Fixpoint map_chars (f : ascii -> ascii) (s : string) : string :=
  match s with
  | EmptyString => EmptyString
  | String c s' => String (f c) (map_chars f s')
  end.

(** [s.replace(a, b)] for one-character [a] and [b]. *)
Definition replace (a b : ascii) (s : string) : string :=
  map_chars (fun c => if (c =? a)%char then b else c) s.

Definition lower_char (c : ascii) : ascii :=
  let n := nat_of_ascii c in
  if (((65 <=? n) && (n <=? 90))
      || ((192 <=? n) && (n <=? 222) && negb (n =? 215)))%nat
  then ascii_of_nat (n + 32) else c.

(** [s.lower()] *)
Definition lower (s : string) : string := map_chars lower_char s.

(** [s.rfind(c)], [None] for -1. *)
Fixpoint rfind (c : ascii) (s : string) : option nat :=
  match s with
  | EmptyString => None
  | String a s' =>
      match rfind c s' with
      | Some i => Some (S i)
      | None => if (a =? c)%char then Some 0 else None
      end
  end.

(** [l[-1]], which raises [IndexError] on the empty list. *)
Definition last_item {A : Type} (l : list A) : result A :=
  match rev l with
  | [] => Raise IndexError
  | x :: _ => Ok x
  end.

(** [l[:-1]] *)
Definition but_last {A : Type} (l : list A) : list A := removelast l.

(** [l[-1] = v] on a non-empty list. *)
Definition set_last {A : Type} (l : list A) (v : A) : list A :=
  removelast l ++ [v].

(** [l[:k]] for any integer [k]: a negative [k] counts from the end. *)
Definition slice_to {A : Type} (l : list A) (k : Z) : list A :=
  if (k <? 0)%Z then firstn (Z.to_nat (Z.of_nat (List.length l) + k)) l
  else firstn (Z.to_nat k) l.

(** [str(n)] for a natural number. *)
Definition str_of_nat (n : nat) : string :=
  NilZero.string_of_uint (Nat.to_uint n).

(** [x in l] for a list of strings. *)
Definition mem (x : string) (l : list string) : bool :=
  existsb (String.eqb x) l.

(** Dictionaries with string keys, in insertion order. *)
Definition dict (V : Type) : Type := list (string * V).

Fixpoint dict_find {V : Type} (d : dict V) (k : string) : option V :=
  match d with
  | [] => None
  | (k', v) :: d' => if (k' =? k)%string then Some v else dict_find d' k
  end.

(** [d.get(k, default)] *)
Definition dict_get {V : Type} (d : dict V) (k : string) (default : V) : V :=
  match dict_find d k with
  | Some v => v
  | None => default
  end.

(** [d[k] = v]: an existing key keeps its place, a new one goes last. *)
Fixpoint dict_set {V : Type} (d : dict V) (k : string) (v : V) : dict V :=
  match d with
  | [] => [(k, v)]
  | (k', v') :: d' =>
      if (k' =? k)%string then (k', v) :: d' else (k', v') :: dict_set d' k v
  end.

(** [k in d] *)
Definition dict_has {V : Type} (d : dict V) (k : string) : bool :=
  match dict_find d k with
  | Some _ => true
  | None => false
  end.

(** [s.add(x)] on a set of strings. *)
Definition set_add (s : list string) (x : string) : list string :=
  if mem x s then s else s ++ [x].

End Py.

(* ================================================================= *)
(** ** Paths *)

Definition Path : Type := list string.

(** [path.relative_to(root)]: [ValueError] when [root] is no prefix. *)
Fixpoint relative_to (path root : Path) : result Path :=
  match root with
  | [] => Ok path
  | r :: root' =>
      match path with
      | [] => Raise ValueError
      | p :: path' =>
          if (p =? r)%string then relative_to path' root' else Raise ValueError
      end
  end.

(** [path.name]: the final part. *)
Definition path_name (path : Path) : string := last path EmptyString.

(** [path.suffix]: from the last dot of the name, when that dot is neither
    its first nor its last character. *)
Definition path_suffix (path : Path) : string :=
  let name := path_name path in
  match Py.rfind "." name with
  | Some i =>
      if ((0 <? i) && (i <? String.length name - 1))%nat
      then substring i (String.length name - i) name
      else EmptyString
  | None => EmptyString
  end.

(* ================================================================= *)
(** ** Module identity: [normalize_module_name] *)

Definition index_names : list string := ["mod"; "index"; "__init__"; "main"].

Definition normalize_module_name (path root : Path) : result string :=
  rel_path <- relative_to path root ;;
  let parts := rel_path in
  last1 <- Py.last_item parts ;;
  let parts :=
    if Py.endswith last1 ".py" || Py.endswith last1 ".rs"
    then Py.set_last parts (Py.rsplit1_head "." last1)
    else parts in
  last2 <- Py.last_item parts ;;
  let parts := if Py.mem last2 index_names then Py.but_last parts else parts in
  Ok (match parts with
      | [] => "root"
      | _ :: _ => Py.join "/" parts
      end).

(* ================================================================= *)
(** ** Regular expressions, as [re] runs the six patterns of the module *)

Module Re.

Definition cls : Type := ascii -> bool.

(** [\s] *)
Definition space : cls := fun c =>
  let n := nat_of_ascii c in
  (((9 <=? n) && (n <=? 13)) || ((28 <=? n) && (n <=? 32))
   || (n =? 133) || (n =? 160))%nat.

(** [\S] *)
Definition nonspace : cls := fun c => negb (space c).

(** [\w] *)
Definition word : cls := fun c =>
  let n := nat_of_ascii c in
  (((48 <=? n) && (n <=? 57)) || ((65 <=? n) && (n <=? 90))
   || ((97 <=? n) && (n <=? 122)) || (n =? 95)
   || (n =? 170) || (n =? 178) || (n =? 179) || (n =? 181)
   || (n =? 185) || (n =? 186) || ((188 <=? n) && (n <=? 190))
   || ((192 <=? n) && (n <=? 214)) || ((216 <=? n) && (n <=? 246))
   || ((248 <=? n) && (n <=? 255)))%nat.

(** One given character. *)
Definition chr (a : ascii) : cls := fun c => (c =? a)%char.

(** The class of the two quote characters, and its complement. *)
Definition quote : cls := fun c =>
  (c =? Py.squote)%char || (c =? Py.dquote)%char.

Definition nonquote : cls := fun c => negb (quote c).

Inductive regex : Type :=
| Eps
| Bol                        (* ^ under re.MULTILINE *)
| One (c : cls)              (* one character of a class *)
| Plus (c : cls)             (* c+, greedy *)
| Opt (r : regex)            (* r?, greedy *)
| Seq (r1 r2 : regex)
| Group (r : regex).         (* the capture group *)

(** A literal text. *)
Fixpoint Lit (s : string) : regex :=
  match s with
  | EmptyString => Eps
  | String a s' => Seq (One (chr a)) (Lit s')
  end.

Definition cat (rs : list regex) : regex := fold_right Seq Eps rs.

(** The matcher's position: the offset in the text, the character before it,
    the text from it on, and what the capture group holds. *)
Record mstate : Type := MState {
  st_pos : nat;
  st_prev : option ascii;
  st_rest : string;
  st_group : string
}.

(** [c+]: take characters of the class while there are, and give them back
    one at a time while the rest of the pattern fails. *)
Fixpoint plus_loop (c : cls) (k : mstate -> option mstate)
         (grp : string) (pos : nat) (rest : string) : option mstate :=
  match rest with
  | EmptyString => None
  | String a rest' =>
      if c a then
        match plus_loop c k grp (S pos) rest' with
        | Some st => Some st
        | None => k (MState (S pos) (Some a) rest' grp)
        end
      else None
  end.

(** Backtracking match of [r] at [st], then of the rest of the pattern [k]. *)
Fixpoint run (r : regex) (k : mstate -> option mstate) (st : mstate)
  : option mstate :=
  match r with
  | Eps => k st
  | Bol =>
      match st_prev st with
      | None => k st
      | Some a => if (a =? Py.nl)%char then k st else None
      end
  | One c =>
      match st_rest st with
      | EmptyString => None
      | String a rest' =>
          if c a
          then k (MState (S (st_pos st)) (Some a) rest' (st_group st))
          else None
      end
  | Plus c => plus_loop c k (st_group st) (st_pos st) (st_rest st)
  | Opt r1 =>
      match run r1 k st with
      | Some st' => Some st'
      | None => k st
      end
  | Seq r1 r2 => run r1 (run r2 k) st
  | Group r1 =>
      run r1
        (fun st' =>
           k (MState (st_pos st') (st_prev st') (st_rest st')
                (substring 0 (st_pos st' - st_pos st) (st_rest st))))
        st
  end.

(** A match object: [m.start()], [m.end()], [m.group(1)]. *)
Record rmatch : Type := RMatch {
  m_start : nat;
  m_end : nat;
  group1 : string
}.

Definition match_at (r : regex) (prev : option ascii) (pos : nat) (s : string)
  : option rmatch :=
  match run r Some (MState pos prev s EmptyString) with
  | Some st => Some (RMatch pos (st_pos st) (st_group st))
  | None => None
  end.

(** The scan of [re.finditer]: at each offset not inside the previous match,
    try the pattern; [skip] counts the characters of the previous match that
    are still to pass. *)
Fixpoint scan (r : regex) (prev : option ascii) (pos skip : nat) (s : string)
  : list rmatch :=
  let found :=
    match skip with
    | O => match_at r prev pos s
    | S _ => None
    end in
  let skip' :=
    match found with
    | Some m => m_end m - pos
    | None => skip
    end in
  let later :=
    match s with
    | EmptyString => []
    | String a s' => scan r (Some a) (S pos) (pred skip') s'
    end in
  match found with
  | Some m => m :: later
  | None => later
  end.

(** [re.finditer(r, s)] *)
Definition finditer (r : regex) (s : string) : list rmatch := scan r None 0 0 s.

End Re.

(* ================================================================= *)
(** ** Import extraction *)

(** [^from\s+(\S+)\s+import] *)
Definition re_py_from : Re.regex :=
  Re.cat [Re.Bol; Re.Lit "from"; Re.Plus Re.space; Re.Group (Re.Plus Re.nonspace);
          Re.Plus Re.space; Re.Lit "import"].

(** [^import\s+(\S+)] *)
Definition re_py_import : Re.regex :=
  Re.cat [Re.Bol; Re.Lit "import"; Re.Plus Re.space;
          Re.Group (Re.Plus Re.nonspace)].

(** [^use\s+(?:crate::)?(\w+)] *)
Definition re_rs_use : Re.regex :=
  Re.cat [Re.Bol; Re.Lit "use"; Re.Plus Re.space; Re.Opt (Re.Lit "crate::");
          Re.Group (Re.Plus Re.word)].

(** [^mod\s+(\w+);] *)
Definition re_rs_mod : Re.regex :=
  Re.cat [Re.Bol; Re.Lit "mod"; Re.Plus Re.space; Re.Group (Re.Plus Re.word);
          Re.Lit ";"].

(** [Q\.?\.?/?(N+)Q], where Q is the class of the single and the double
    quote and N its complement: a quoted path, its leading [./] or [../] left
    out of the group. *)
Definition re_quoted_path : list Re.regex :=
  [Re.One Re.quote; Re.Opt (Re.One (Re.chr ".")); Re.Opt (Re.One (Re.chr "."));
   Re.Opt (Re.One (Re.chr "/")); Re.Group (Re.Plus Re.nonquote);
   Re.One Re.quote].

(** [from\s+Q\.?\.?/?(N+)Q] *)
Definition re_js_from : Re.regex :=
  Re.cat ([Re.Lit "from"; Re.Plus Re.space] ++ re_quoted_path).

(** [require\(Q\.?\.?/?(N+)Q\)] *)
Definition re_js_require : Re.regex :=
  Re.cat ([Re.Lit "require("] ++ re_quoted_path ++ [Re.Lit ")"]).

(** [for x in xs: body], the loop's variables threaded through. *)
Definition for_in {A S : Type} (xs : list A) (s : S) (body : S -> A -> S) : S :=
  fold_left body xs s.

Definition extract_imports_python (content : string) : list string :=
  let imports := [] in
  let imports :=
    for_in (Re.finditer re_py_from content) imports (fun imports m =>
      imports ++ [Re.group1 m]) in
  let imports :=
    for_in (Re.finditer re_py_import content) imports (fun imports m =>
      let mod_ := hd EmptyString
                    (Py.split " " (hd EmptyString (Py.split "," (Re.group1 m)))) in
      imports ++ [mod_]) in
  imports.

Definition extract_imports_rust (content : string) : list string :=
  let imports := [] in
  let imports :=
    for_in (Re.finditer re_rs_use content) imports (fun imports m =>
      imports ++ [Re.group1 m]) in
  let imports :=
    for_in (Re.finditer re_rs_mod content) imports (fun imports m =>
      imports ++ [Re.group1 m]) in
  imports.

Definition extract_imports_js (content : string) : list string :=
  let imports := [] in
  let imports :=
    for_in (Re.finditer re_js_from content) imports (fun imports m =>
      let path := Re.group1 m in
      if negb (Py.startswith path "@") && negb (Py.startswith path "node_modules")
      then imports ++ [path] else imports) in
  let imports :=
    for_in (Re.finditer re_js_require content) imports (fun imports m =>
      let path := Re.group1 m in
      if negb (Py.startswith path "@")
      then imports ++ [path] else imports) in
  imports.

(* ================================================================= *)
(** ** The dependency graph *)

Definition Edge : Type := (string * string)%type.

Record DependencyGraph : Type := Graph {
  nodes : list string;       (* the set, as iteration enumerates it *)
  edges : list Edge;
  circular : list Edge
}.

Definition edge_eqb (a b : Edge) : bool :=
  (fst a =? fst b)%string && (snd a =? snd b)%string.

(** [e in l] for a list (or set) of pairs of strings. *)
Definition edge_mem (e : Edge) (l : list Edge) : bool := existsb (edge_eqb e) l.

(** *** Cycle detection *)

Definition detect_circular_dependencies (graph : DependencyGraph) : list Edge :=
  let circular := [] in
  (* the adjacency sets are built and not read again *)
  let adj := for_in (nodes graph) [] (fun adj node =>
               Py.dict_set adj node ([] : list string)) in
  let adj := for_in (edges graph) adj (fun adj e =>
               let '(src, dst) := e in
               if Py.dict_has adj src
               then Py.dict_set adj src (Py.set_add (Py.dict_get adj src []) dst)
               else adj) in
  let circular :=
    for_in (edges graph) circular (fun circular e =>
      let '(src, dst) := e in
      if edge_mem (dst, src) (edges graph) && negb (edge_mem (dst, src) circular)
      then circular ++ [(src, dst)] else circular) in
  circular.

(** *** Graph construction *)

(** The test of the resolution heuristic on one known module. *)
Definition import_matches (known_module imp_normalized : string) : bool :=
  Py.endswith known_module imp_normalized
  || Py.endswith imp_normalized (last (Py.split "/" known_module) EmptyString).

(** [for known_module in graph.nodes: ...], with its [break]. *)
Fixpoint match_known (module_name imp_normalized : string)
         (known : list string) (edges : list Edge) : list Edge :=
  match known with
  | [] => edges
  | known_module :: known' =>
      if import_matches known_module imp_normalized then
        (* break, after the append or without it *)
        if negb (module_name =? known_module)%string
        then edges ++ [(module_name, known_module)]
        else edges
      else match_known module_name imp_normalized known' edges
  end.

(** The body of [for imp in imports]. *)
Definition resolve_import (nodes : list string) (module_name : string)
           (edges : list Edge) (imp : string) : list Edge :=
  let imp_parts := Py.split "/" (Py.replace "." "/" imp) in
  let imp_normalized := Py.join "/" imp_parts in
  match_known module_name imp_normalized nodes edges.

(** The extractor chosen by the file's extension. *)
Definition imports_of (file_path : Path) (content : string) : list string :=
  let ext := Py.lower (path_suffix file_path) in
  if (ext =? ".py")%string then extract_imports_python content
  else if (ext =? ".rs")%string then extract_imports_rust content
  else if Py.mem ext [".js"; ".jsx"; ".ts"; ".tsx"]
       then extract_imports_js content
  else [].

Section Build.

(** The order in which a set built by the given insertions is iterated. *)
Variable set_iter : list string -> list string.

(** The text of a file, [None] when opening or reading it raises. *)
Variable read_file : Path -> option string.

(** The body of the first loop: the module map and the node set. *)
Definition add_node (root : Path) (st : Py.dict Path * list string)
           (file_path : Path) : result (Py.dict Path * list string) :=
  let '(module_map, node_set) := st in
  module_name <- normalize_module_name file_path root ;;
  Ok (Py.dict_set module_map module_name file_path,
      Py.set_add node_set module_name).

(** The body of the second loop: the edges of one file. *)
Definition add_edges (root : Path) (nodes : list string) (edges : list Edge)
           (file_path : Path) : result (list Edge) :=
  module_name <- normalize_module_name file_path root ;;
  match read_file file_path with
  | None => Ok edges                                   (* continue *)
  | Some content =>
      let imports := imports_of file_path content in
      Ok (for_in imports edges (resolve_import nodes module_name))
  end.

Definition build_dependency_graph (files : list Path) (root : Path)
  : result DependencyGraph :=
  st <- for_each (add_node root) files ([], []) ;;
  let graph_nodes := set_iter (snd st) in
  graph_edges <- for_each (add_edges root graph_nodes) files [] ;;
  let graph := Graph graph_nodes graph_edges [] in
  Ok (Graph graph_nodes graph_edges (detect_circular_dependencies graph)).

End Build.

(** A set iterated in insertion order. *)
Definition insertion_order (l : list string) : list string := l.

(* ================================================================= *)
(** ** The diagram *)

Definition mermaid_header : list string := ["```mermaid"; "graph TD"].
Definition mermaid_footer : list string := ["```"].
Definition link_style_line : string := "    linkStyle default stroke:#333".

(** [enumerate(l)] *)
Definition enumerate {A : Type} (l : list A) : list (nat * A) :=
  combine (seq 0 (List.length l)) l.

Definition node_decl_line (node node_id : string) : string :=
  let label := Py.replace Py.dquote Py.squote node in
  ("    " ++ node_id ++ "[" ++ String Py.dquote label
     ++ String Py.dquote "]")%string.

Definition edge_line (src_id dst_id : string) : string :=
  ("    " ++ src_id ++ " --> " ++ dst_id)%string.

(** The selected nodes and their identifiers. *)
Definition mermaid_node_ids (graph : DependencyGraph) (max_nodes : Z)
  : Py.dict string :=
  let nodes := Py.slice_to (nodes graph) max_nodes in
  for_in (enumerate nodes) [] (fun node_ids p =>
    let '(i, node) := p in
    Py.dict_set node_ids node ("N" ++ Py.str_of_nat i)%string).

(** The list [lines] of [generate_mermaid] before it is joined. *)
Definition generate_mermaid_lines (graph : DependencyGraph) (max_nodes : Z)
  : list string :=
  let lines := mermaid_header in
  let node_ids := mermaid_node_ids graph max_nodes in
  let lines :=
    for_in node_ids lines (fun lines p =>
      let '(node, node_id) := p in
      lines ++ [node_decl_line node node_id]) in
  let added_edges := [] in
  let '(lines, added_edges) :=
    for_in (edges graph) (lines, added_edges) (fun st e =>
      let '(lines, added_edges) := st in
      let '(src, dst) := e in
      if Py.dict_has node_ids src && Py.dict_has node_ids dst then
        let edge_key := (src, dst) in
        if negb (edge_mem edge_key added_edges) then
          (lines ++ [edge_line (Py.dict_get node_ids src EmptyString)
                               (Py.dict_get node_ids dst EmptyString)],
           added_edges ++ [edge_key])
        else st
      else st) in
  let lines :=
    for_in (circular graph) lines (fun lines e =>
      let '(src, dst) := e in
      if Py.dict_has node_ids src && Py.dict_has node_ids dst
      then lines ++ [link_style_line] else lines) in
  lines ++ mermaid_footer.

Definition generate_mermaid (graph : DependencyGraph) (max_nodes : Z) : string :=
  Py.join (String Py.nl EmptyString) (generate_mermaid_lines graph max_nodes).

(* ================================================================= *)
(** ** The report *)

Fixpoint insert_by {A : Type} (key : A -> Z) (x : A) (l : list A) : list A :=
  match l with
  | [] => [x]
  | y :: l' =>
      if (key x <=? key y)%Z then x :: y :: l' else y :: insert_by key x l'
  end.

(** [sorted(l, key=key)]: ascending in the key, stable. *)
Definition sorted {A : Type} (key : A -> Z) (l : list A) : list A :=
  fold_right (insert_by key) [] l.

(** The two counters of [generate_dependency_report]. *)
Definition connectivity (graph : DependencyGraph) : Py.dict nat * Py.dict nat :=
  let incoming := for_in (nodes graph) [] (fun d node => Py.dict_set d node 0) in
  let outgoing := for_in (nodes graph) [] (fun d node => Py.dict_set d node 0) in
  for_in (edges graph) (incoming, outgoing) (fun st e =>
    let '(incoming, outgoing) := st in
    let '(src, dst) := e in
    let outgoing := Py.dict_set outgoing src (Py.dict_get outgoing src 0 + 1) in
    let incoming := Py.dict_set incoming dst (Py.dict_get incoming dst 0 + 1) in
    (incoming, outgoing)).

Definition incoming_of (graph : DependencyGraph) : Py.dict nat :=
  fst (connectivity graph).

Definition outgoing_of (graph : DependencyGraph) : Py.dict nat :=
  snd (connectivity graph).

(** The entries a ranking prints: the first ten by descending count, those
    with a positive count. *)
Definition presented (counts : Py.dict nat) : list (string * nat) :=
  for_in (firstn 10 (sorted (fun x => (- Z.of_nat (snd x))%Z) counts)) []
    (fun shown p =>
       let '(node, count) := p in
       if (0 <? count)%nat then shown ++ [(node, count)] else shown).

Definition ranking_lines (what : string) (counts : Py.dict nat) : list string :=
  map (fun p => ("- `" ++ fst p ++ "`: " ++ Py.str_of_nat (snd p) ++ what)%string)
      (presented counts).

Definition generate_dependency_report (graph : DependencyGraph) (root : Path)
  : string :=
  let lines :=
    ["# Dependency Graph"; ""; "## Overview"; "";
     "- **Total Modules**: " ++ Py.str_of_nat (List.length (nodes graph));
     "- **Total Dependencies**: " ++ Py.str_of_nat (List.length (edges graph));
     "- **Circular Dependencies**: "
       ++ Py.str_of_nat (List.length (circular graph));
     ""]%string in
  let lines := lines ++ ["## Module Dependencies"; "";
                         generate_mermaid graph 50; ""] in
  let lines :=
    match circular graph with
    | [] => lines
    | _ :: _ =>
        let lines := lines ++ ["## Circular Dependencies"; "";
                     "The following circular dependencies were detected:"; ""] in
        let lines := for_in (circular graph) lines (fun lines e =>
                       let '(src, dst) := e in
                       lines ++ ["- `" ++ src ++ "` <-> `" ++ dst ++ "`"]%string) in
        lines ++ [""]
    end in
  let '(incoming, outgoing) := connectivity graph in
  let lines := lines ++ ["## Most Connected Modules"; "";
                         "### Most Imported (Hub Modules)"; ""] in
  let lines := lines ++ ranking_lines " imports" incoming ++ [""] in
  let lines := lines ++ ["### Most Importing"; ""] in
  let lines := lines ++ ranking_lines " dependencies" outgoing ++ [""] in
  Py.join (String Py.nl EmptyString) lines.

(* ================================================================= *)
(** ** Definitions the statements use *)

(** One pass of the detection loop over the edge list [es]. *)
Definition circular_step (es : list Edge) (circular : list Edge) (e : Edge)
  : list Edge :=
  let '(src, dst) := e in
  if edge_mem (dst, src) es && negb (edge_mem (dst, src) circular)
  then circular ++ [(src, dst)] else circular.

Definition no_self_edge (es : list Edge) : Prop :=
  forall src dst, In (src, dst) es -> src <> dst.

(** The reference as the matching loop sees it. *)
Definition normalized_import (imp : string) : string :=
  Py.join "/" (Py.split "/" (Py.replace "." "/" imp)).

(** The number of edges whose end picked by [sel] is [m]. *)
Definition count_edges (sel : Edge -> string) (es : list Edge) (m : string)
  : nat :=
  List.length (filter (fun e => (sel e =? m)%string) es).

Definition in_degree (graph : DependencyGraph) (m : string) : nat :=
  count_edges snd (edges graph) m.

Definition out_degree (graph : DependencyGraph) (m : string) : nat :=
  count_edges fst (edges graph) m.

(** [d[k] = d.get(k, 0) + 1] *)
Definition bump (d : Py.dict nat) (k : string) : Py.dict nat :=
  Py.dict_set d k (Py.dict_get d k 0 + 1).

(** The identifier of the [i]-th selected node. *)
Definition node_id_of (i : nat) : string := ("N" ++ Py.str_of_nat i)%string.

(** The identifiers of the selected nodes, in the order of the selection. *)
Definition ids_of (selected : list string) : Py.dict string :=
  map (fun p => (snd p, node_id_of (fst p))) (enumerate selected).

(** The connection line of an edge under the identifiers [ids]. *)
Definition edge_line_of (ids : Py.dict string) (e : Edge) : string :=
  edge_line (Py.dict_get ids (fst e) EmptyString)
            (Py.dict_get ids (snd e) EmptyString).

(** One pass of the connection loop. *)
Definition mermaid_edge_step (ids : Py.dict string)
           (st : list string * list Edge) (e : Edge)
  : list string * list Edge :=
  let '(lines, added_edges) := st in
  let '(src, dst) := e in
  if Py.dict_has ids src && Py.dict_has ids dst then
    let edge_key := (src, dst) in
    if negb (edge_mem edge_key added_edges) then
      (lines ++ [edge_line (Py.dict_get ids src EmptyString)
                           (Py.dict_get ids dst EmptyString)],
       added_edges ++ [edge_key])
    else st
  else st.

(** Both ends of an edge have an identifier. *)
Definition has_ids (ids : Py.dict string) (e : Edge) : Prop :=
  In (fst e) (map fst ids) /\ In (snd e) (map fst ids).

(** The name kept from the group of a plain [import]:
    [group.split(',')[0].split(' ')[0]]. *)
Definition python_import_name (group : string) : string :=
  hd EmptyString (Py.split " " (hd EmptyString (Py.split "," group))).

Definition js_from_kept (m : Re.rmatch) : bool :=
  negb (Py.startswith (Re.group1 m) "@")
  && negb (Py.startswith (Re.group1 m) "node_modules").

Definition js_require_kept (m : Re.rmatch) : bool :=
  negb (Py.startswith (Re.group1 m) "@").

(** The references of a Python text with the offset of the statement each
    comes from, in the order [extract_imports_python] returns them. *)
Definition python_located (content : string) : list (nat * string) :=
  map (fun m => (Re.m_start m, Re.group1 m)) (Re.finditer re_py_from content)
  ++ map (fun m => (Re.m_start m, python_import_name (Re.group1 m)))
         (Re.finditer re_py_import content).

(** The last character of a text, or [prev] when the text is empty. *)
Fixpoint last_char (prev : option ascii) (s : string) : option ascii :=
  match s with
  | EmptyString => prev
  | String a s' => last_char (Some a) s'
  end.

(** [m] is a match of [r] in [content] at the offset [m_start m]. *)
Definition occurs_in (r : Re.regex) (content : string) (m : Re.rmatch) : Prop :=
  exists before rest,
    content = (before ++ rest)%string
    /\ String.length before = Re.m_start m
    /\ Re.match_at r (last_char None before) (Re.m_start m) rest = Some m.

Definition module_of_parts (dirs : list string) (name : string) : string :=
  if Py.mem name index_names
  then match dirs with
       | [] => "root"
       | _ :: _ => Py.join "/" dirs
       end
  else Py.join "/" (dirs ++ [name]).

(** The extensions whose files are searched for references. *)
Definition graph_extensions : list string :=
  [".py"; ".rs"; ".js"; ".jsx"; ".ts"; ".tsx"].

(** The edge [(src, dst)] comes from a reference of a file that was read. *)
Definition edge_from_reference (read_file : Path -> option string)
           (root : Path) (files : list Path) (src dst : string) : Prop :=
  exists p content imp,
    In p files
    /\ normalize_module_name p root = Ok src
    /\ read_file p = Some content
    /\ Py.mem (Py.lower (path_suffix p)) graph_extensions = true
    /\ In imp (imports_of p content)
    /\ import_matches dst (normalized_import imp) = true.

(** Every character of [s] is in the class [c]. *)
Fixpoint all_chars (c : Re.cls) (s : string) : bool :=
  match s with
  | EmptyString => true
  | String a s' => c a && all_chars c s'
  end.

(** A non-empty text of characters of the class [c]. *)
Definition run_of (c : Re.cls) (s : string) : Prop :=
  s <> EmptyString /\ all_chars c s = true.

(** Every capture group of the pattern is [(c+)]. *)
Inductive captures (c : Re.cls) : Re.regex -> Prop :=
| captures_Eps : captures c Re.Eps
| captures_Bol : captures c Re.Bol
| captures_One : forall c', captures c (Re.One c')
| captures_Plus : forall c', captures c (Re.Plus c')
| captures_Opt : forall r, captures c r -> captures c (Re.Opt r)
| captures_Seq : forall r1 r2,
    captures c r1 -> captures c r2 -> captures c (Re.Seq r1 r2)
| captures_Group : captures c (Re.Group (Re.Plus c)).

(** A match of the pattern goes through a capture group. *)
Inductive must_capture : Re.regex -> Prop :=
| must_Group : forall r, must_capture (Re.Group r)
| must_Seq_l : forall r1 r2, must_capture r1 -> must_capture (Re.Seq r1 r2)
| must_Seq_r : forall r1 r2, must_capture r2 -> must_capture (Re.Seq r1 r2).

(** Both ends of a pair are among the selected nodes. *)
Definition both_selected (selected : list string) (e : Edge) : bool :=
  Py.mem (fst e) selected && Py.mem (snd e) selected.

(** [a] does not come after [b] in a ranking: its count is not smaller. *)
Definition ranks_before (a b : string * nat) : Prop := snd b <= snd a.

Definition neg_count (x : string * nat) : Z := (- Z.of_nat (snd x))%Z.

(** The sum of the counts of a map. *)
Definition dict_total (d : Py.dict nat) : nat := list_sum (map snd d).

(** The edges one file adds, for the node list [ns]. *)
Definition file_edges (read_file : Path -> option string) (root : Path)
           (ns : list string) (p : Path) : list Edge :=
  match normalize_module_name p root, read_file p with
  | Ok module_name, Some content =>
      flat_map (fun imp => resolve_import ns module_name [] imp)
               (imports_of p content)
  | _, _ => []
  end.

(* ================================================================= *)
(** ** Example inputs *)

Module Example.

Definition NL : string := String Py.nl EmptyString.
Definition DQ : string := String Py.dquote EmptyString.

Definition path_eqb (p q : Path) : bool :=
  if list_eq_dec string_dec p q then true else false.

(** A file system given by the files it holds; every other path fails to open. *)
Fixpoint fs_of (files : list (Path * string)) (p : Path) : option string :=
  match files with
  | [] => None
  | (q, content) :: files' =>
      if path_eqb q p then Some content else fs_of files' p
  end.

Definition root : Path := ["/"; "repo"].
Definition under_root (rel : list string) : Path := root ++ rel.

(** [C] is in the node set and in no reciprocal pair. *)
Definition reciprocal_and_extra : DependencyGraph :=
  Graph ["A"; "B"; "C"] [("A", "B"); ("B", "A"); ("A", "C")] [].

Definition triangle : DependencyGraph :=
  Graph ["A"; "B"; "C"] [("A", "B"); ("B", "C"); ("C", "A")] [].

(** The edges of [a.py] importing [b] twice and [b.py] importing [a]. *)
Definition repeated_edge : DependencyGraph :=
  Graph ["A"; "B"] [("A", "B"); ("A", "B"); ("B", "A")] [].

Definition chain : DependencyGraph :=
  Graph ["A"; "B"; "C"] [("A", "B"); ("A", "C"); ("B", "C")] [].

(** Five nodes and an edge for every ordered pair of different nodes, the
    edge [(A, B)] recorded twice. *)
Definition five_nodes : list string := ["A"; "B"; "C"; "D"; "E"].

Definition complete5 : DependencyGraph :=
  let es := flat_map (fun s =>
              flat_map (fun d => if (s =? d)%string then [] else [(s, d)])
                       five_nodes) five_nodes in
  Graph five_nodes (("A", "B") :: es) [("A", "B")].

(** [a.py] imports itself and [b]; [b.py] imports [a]. *)
Definition file_a : Path := under_root ["a.py"].
Definition file_b : Path := under_root ["b.py"].
Definition file_c : Path := under_root ["c.py"].

Definition self_import_fs : Path -> option string :=
  fs_of [(file_a, "import a" ++ NL ++ "import b" ++ NL);
         (file_b, "import a" ++ NL)]%string.

(** [b.py] cannot be read; [a.py] and [c.py] import it. *)
Definition unreadable_fs : Path -> option string :=
  fs_of [(file_a, "import b" ++ NL ++ "import c" ++ NL);
         (file_c, "from b import x" ++ NL)]%string.

(** A plain import, then a [from] import on the next line. *)
Definition import_then_from : string :=
  ("import a" ++ NL ++ "from b import c")%string.

(** The graph built from [self_import_fs]. *)
Definition self_import_graph : DependencyGraph :=
  Graph ["a"; "b"] [("a", "b"); ("b", "a")] [("a", "b")].

End Example.

(* ================================================================= *)
(** ** Basic facts *)

Lemma edge_eqb_eq (a b : Edge) : edge_eqb a b = true <-> a = b.
Proof.
  destruct a as [a1 a2], b as [b1 b2]; unfold edge_eqb; simpl.
  rewrite andb_true_iff, !String.eqb_eq.
  split; [intros [-> ->]; reflexivity | intros H; inversion H; auto].
Qed.

Lemma edge_mem_In (e : Edge) (l : list Edge) : edge_mem e l = true <-> In e l.
Proof.
  unfold edge_mem. rewrite existsb_exists. split.
  - intros [x [Hx Heq]]. apply edge_eqb_eq in Heq. subst. exact Hx.
  - intros H. exists e. split; [exact H | apply edge_eqb_eq; reflexivity].
Qed.

Lemma edge_mem_not_In (e : Edge) (l : list Edge) :
  edge_mem e l = false <-> ~ In e l.
Proof.
  rewrite <- edge_mem_In. destruct (edge_mem e l); split; intros; congruence.
Qed.

Lemma mem_In (x : string) (l : list string) : Py.mem x l = true <-> In x l.
Proof.
  unfold Py.mem. rewrite existsb_exists. split.
  - intros [y [Hy Heq]]. apply String.eqb_eq in Heq. subst. exact Hy.
  - intros H. exists x. split; [exact H | apply String.eqb_refl].
Qed.

(** A property kept by every pass of a loop holds when the loop ends. *)
Lemma for_in_invariant {A S : Type} (P : S -> Prop) (body : S -> A -> S)
      (xs : list A) (s : S) :
  P s -> (forall s' x, In x xs -> P s' -> P (body s' x)) -> P (for_in xs s body).
Proof.
  unfold for_in. revert s.
  induction xs as [| x xs IH]; intros s Hs Hstep; simpl.
  - exact Hs.
  - apply IH.
    + apply Hstep; [left; reflexivity | exact Hs].
    + intros s' y Hy. apply Hstep. right. exact Hy.
Qed.

(** A loop that appends [f x] for the [x] that pass a test. *)
Lemma for_in_append {A B : Type} (keep : A -> bool) (f : A -> B)
      (xs : list A) (acc : list B) :
  for_in xs acc (fun acc x => if keep x then acc ++ [f x] else acc)
  = acc ++ map f (filter keep xs).
Proof.
  unfold for_in. revert acc.
  induction xs as [| x xs IH]; intros acc; simpl.
  - rewrite app_nil_r. reflexivity.
  - rewrite IH. destruct (keep x); simpl.
    + rewrite <- app_assoc. reflexivity.
    + reflexivity.
Qed.

Lemma for_in_append_all {A B : Type} (f : A -> B) (xs : list A) (acc : list B) :
  for_in xs acc (fun acc x => acc ++ [f x]) = acc ++ map f xs.
Proof.
  unfold for_in. revert acc.
  induction xs as [| x xs IH]; intros acc; simpl.
  - rewrite app_nil_r. reflexivity.
  - rewrite IH, <- app_assoc. reflexivity.
Qed.

(* ================================================================= *)
(** ** Cycle detection *)

Lemma detect_circular_unfold (graph : DependencyGraph) :
  detect_circular_dependencies graph
  = for_in (edges graph) [] (circular_step (edges graph)).
Proof. reflexivity. Qed.

(** X1. Every recorded pair is an edge whose reverse is an edge too. *)
Lemma detect_circular_sound (graph : DependencyGraph) (a b : string) :
  In (a, b) (detect_circular_dependencies graph) ->
  In (a, b) (edges graph) /\ In (b, a) (edges graph).
Proof.
  rewrite detect_circular_unfold.
  set (es := edges graph).
  apply (for_in_invariant
           (fun c => In (a, b) c -> In (a, b) es /\ In (b, a) es)).
  - intros [].
  - intros c [s d] Hin IH. unfold circular_step.
    destruct (edge_mem (d, s) es) eqn:Hrev; simpl; [| exact IH].
    destruct (edge_mem (d, s) c) eqn:Hseen; simpl; [exact IH |].
    intros H. apply in_app_iff in H. destruct H as [H | [H | []]].
    + exact (IH H).
    + inversion H; subst. split; [exact Hin | apply edge_mem_In; exact Hrev].
Qed.

(** X2. A reciprocal pair of edges is recorded in one of its two
    orientations. *)
Lemma detect_circular_complete (graph : DependencyGraph) (a b : string) :
  In (a, b) (edges graph) -> In (b, a) (edges graph) ->
  In (a, b) (detect_circular_dependencies graph)
  \/ In (b, a) (detect_circular_dependencies graph).
Proof.
  intros Hab Hba. rewrite detect_circular_unfold.
  set (es := edges graph).
  assert (Hgen : forall l c,
             (In (a, b) l \/ In (a, b) c \/ In (b, a) c) ->
             incl l es ->
             In (a, b) (for_in l c (circular_step es))
             \/ In (b, a) (for_in l c (circular_step es))).
  { unfold for_in. induction l as [| [s d] l IH]; intros c H Hl; simpl.
    - destruct H as [[] | H]; exact H.
    - apply IH; [| intros x Hx; apply Hl; right; exact Hx].
      unfold circular_step.
      destruct (edge_mem (d, s) es) eqn:Hrev; simpl.
      + destruct (edge_mem (d, s) c) eqn:Hseen; simpl.
        * destruct H as [[H | H] | H].
          -- inversion H; subst. right. right. apply edge_mem_In. exact Hseen.
          -- left. exact H.
          -- right. exact H.
        * destruct H as [[H | H] | [H | H]].
          -- inversion H; subst. right. left. apply in_app_iff. right. left.
             reflexivity.
          -- left. exact H.
          -- right. left. apply in_app_iff. left. exact H.
          -- right. right. apply in_app_iff. left. exact H.
      + destruct H as [[H | H] | H].
        * inversion H; subst. apply edge_mem_not_In in Hrev. contradiction.
        * left. exact H.
        * right. exact H. }
  apply Hgen; [left; exact Hab | apply incl_refl].
Qed.

Lemma detect_circular_sound_witness :
  In ("A", "B") (detect_circular_dependencies Example.reciprocal_and_extra)
  /\ In ("A", "B") (edges Example.reciprocal_and_extra)
  /\ In ("B", "A") (edges Example.reciprocal_and_extra).
Proof.
  assert (Hin : In ("A", "B")
                   (detect_circular_dependencies Example.reciprocal_and_extra))
    by (left; reflexivity).
  split; [exact Hin |].
  exact (detect_circular_sound Example.reciprocal_and_extra "A" "B" Hin).
Defined.

Lemma detect_circular_complete_witness :
  In ("B", "A") (edges Example.reciprocal_and_extra)
  /\ In ("A", "B") (edges Example.reciprocal_and_extra)
  /\ (In ("B", "A") (detect_circular_dependencies Example.reciprocal_and_extra)
      \/ In ("A", "B")
            (detect_circular_dependencies Example.reciprocal_and_extra)).
Proof.
  assert (Hba : In ("B", "A") (edges Example.reciprocal_and_extra))
    by (right; left; reflexivity).
  assert (Hab : In ("A", "B") (edges Example.reciprocal_and_extra))
    by (left; reflexivity).
  split; [exact Hba |]. split; [exact Hab |].
  exact (detect_circular_complete Example.reciprocal_and_extra "B" "A" Hba Hab).
Defined.

(** X3. On an edge list without repeated edges no pair is recorded twice. *)
Lemma detect_circular_NoDup (graph : DependencyGraph) :
  NoDup (edges graph) -> NoDup (detect_circular_dependencies graph).
Proof.
  rewrite detect_circular_unfold. set (es := edges graph).
  assert (Hgen : forall l acc,
             NoDup (acc ++ l) -> NoDup (for_in l acc (circular_step es))).
  { unfold for_in. induction l as [| [s d] l IH]; intros acc Hnd; simpl.
    - rewrite app_nil_r in Hnd. exact Hnd.
    - apply IH. unfold circular_step.
      destruct (edge_mem (d, s) es && negb (edge_mem (d, s) acc)).
      + rewrite <- app_assoc. exact Hnd.
      + apply NoDup_remove_1 in Hnd. exact Hnd. }
  intros Hnd. apply Hgen. exact Hnd.
Qed.

Lemma detect_circular_NoDup_witness :
  NoDup (edges Example.reciprocal_and_extra)
  /\ NoDup (detect_circular_dependencies Example.reciprocal_and_extra).
Proof.
  assert (Hnd : NoDup (edges Example.reciprocal_and_extra)).
  { simpl. repeat (constructor; [simpl; intros H; intuition discriminate |]).
    constructor. }
  split; [exact Hnd |].
  exact (detect_circular_NoDup Example.reciprocal_and_extra Hnd).
Defined.

(** C1 (the code departs from the claim). On the two examples of the
    specification the detector answers as claimed: the reciprocal pair alone,
    and nothing for a triangle. On an edge list that repeats an edge of a
    reciprocal pair, as the builder produces when a file imports the same
    module twice, the pair is recorded twice: the guard of the loop looks for
    the reversed pair only. *)
Theorem detect_circular_records_repeated_edge_twice :
  detect_circular_dependencies Example.reciprocal_and_extra = [("A", "B")]
  /\ detect_circular_dependencies Example.triangle = []
  /\ detect_circular_dependencies Example.repeated_edge
     = [("A", "B"); ("A", "B")].
Proof. repeat split; reflexivity. Qed.

(** A self-edge, which the builder never produces (C3), is its own reverse and
    is recorded once. *)
Lemma detect_circular_self_edge :
  detect_circular_dependencies (Graph ["A"] [("A", "A"); ("A", "A")] [])
  = [("A", "A")].
Proof. reflexivity. Qed.

(** C10. The output of the detector never holds both orientations of a pair of
    two different modules: when [(a, b)] is recorded, [(b, a)] is not. On an
    edge list without self-edges, as every built one is, the premise that the
    modules differ holds of every recorded pair. *)
Theorem detect_circular_one_orientation :
  forall (graph : DependencyGraph) (a b : string),
    a <> b ->
    In (a, b) (detect_circular_dependencies graph) ->
    ~ In (b, a) (detect_circular_dependencies graph).
Proof.
  intros graph a b Hneq. rewrite detect_circular_unfold.
  set (es := edges graph).
  apply (for_in_invariant (fun c => In (a, b) c -> ~ In (b, a) c)).
  - intros [].
  - intros c [s d] _ IH. unfold circular_step.
    destruct (edge_mem (d, s) es) eqn:Hrev; simpl; [| exact IH].
    destruct (edge_mem (d, s) c) eqn:Hseen; simpl; [exact IH |].
    apply edge_mem_not_In in Hseen.
    intros Hab Hba.
    apply in_app_iff in Hab. apply in_app_iff in Hba.
    destruct Hab as [Hab | [Hab | []]]; destruct Hba as [Hba | [Hba | []]].
    + exact (IH Hab Hba).
    + inversion Hba; subst. apply Hseen. exact Hab.
    + inversion Hab; subst. apply Hseen. exact Hba.
    + inversion Hab; inversion Hba; subst. apply Hneq. assumption.
Qed.

Lemma detect_circular_one_orientation_witness :
  "A" <> "B"
  /\ In ("A", "B") (detect_circular_dependencies Example.repeated_edge)
  /\ ~ In ("B", "A") (detect_circular_dependencies Example.repeated_edge).
Proof.
  assert (Hneq : "A" <> "B") by discriminate.
  assert (Hin : In ("A", "B")
                   (detect_circular_dependencies Example.repeated_edge))
    by (left; reflexivity).
  split; [exact Hneq |]. split; [exact Hin |].
  exact (detect_circular_one_orientation Example.repeated_edge "A" "B" Hneq Hin).
Defined.

(* ================================================================= *)
(** ** Module identity *)

(** C2 (the code departs from the claim). Only the extensions [.py] and [.rs]
    are removed: a TypeScript index file keeps its final segment, extension
    included, and so is not given the module of its directory, while the
    Python entry point of the same directory is. *)
Theorem normalize_module_name_keeps_index_ts :
  normalize_module_name (Example.under_root ["src"; "utils"; "index.ts"])
                        Example.root
  = Ok "src/utils/index.ts"
  /\ normalize_module_name (Example.under_root ["src"; "utils"; "__init__.py"])
                           Example.root
     = Ok "src/utils"
  /\ normalize_module_name (Example.under_root ["src"; "utils"]) Example.root
     = Ok "src/utils".
Proof. repeat split; reflexivity. Qed.

(* ================================================================= *)
(** ** Import extraction: the JavaScript filter *)

(** C5 (the code departs from the claim). The [require] loop tests the
    captured path for a leading [@] only: a path under [node_modules] is
    returned by it, and dropped by the [from] loop. *)
Theorem extract_imports_js_require_keeps_node_modules :
  extract_imports_js
    ("require(" ++ Example.DQ ++ "node_modules/foo" ++ Example.DQ ++ ")")%string
  = ["node_modules/foo"]
  /\ extract_imports_js
       ("import foo from " ++ Example.DQ ++ "node_modules/foo" ++ Example.DQ)%string
     = []
  /\ extract_imports_js
       ("require(" ++ Example.DQ ++ "@scope/pkg" ++ Example.DQ ++ ")")%string
     = [].
Proof. repeat split; vm_compute; reflexivity. Qed.

(* ================================================================= *)
(** ** Graph construction *)

Lemma for_each_app {A S : Type} (body : S -> A -> result S) (l1 l2 : list A)
      (s : S) :
  for_each body (l1 ++ l2) s = (s' <- for_each body l1 s ;; for_each body l2 s').
Proof.
  revert s. induction l1 as [| x l1 IH]; intros s; simpl.
  - reflexivity.
  - destruct (body s x) as [s1 | e]; simpl; [apply IH | reflexivity].
Qed.

(** A property kept by every pass that does not raise holds of the final state. *)
Lemma for_each_invariant {A S : Type} (P : S -> Prop) (body : S -> A -> result S)
      (l : list A) :
  (forall s x s', In x l -> P s -> body s x = Ok s' -> P s') ->
  forall s r, P s -> for_each body l s = Ok r -> P r.
Proof.
  induction l as [| x l IH]; intros Hstep s r Hs Hrun; simpl in Hrun.
  - inversion Hrun; subst. exact Hs.
  - destruct (body s x) as [s1 | e] eqn:Hb; simpl in Hrun; [| discriminate].
    apply (IH (fun s0 y s0' Hy => Hstep s0 y s0' (or_intror Hy)) s1 r);
      [| exact Hrun].
    apply (Hstep s x s1); [left; reflexivity | exact Hs | exact Hb].
Qed.

(** A loop none of whose passes raises does not raise. *)
Lemma for_each_total {A S : Type} (body : S -> A -> result S) (l : list A) :
  (forall s x, In x l -> exists s', body s x = Ok s') ->
  forall s, exists r, for_each body l s = Ok r.
Proof.
  induction l as [| x l IH]; intros Hstep s; simpl.
  - exists s. reflexivity.
  - destruct (Hstep s x (or_introl eq_refl)) as [s1 Hs1]. rewrite Hs1. simpl.
    apply IH. intros s0 y Hy. apply Hstep. right. exact Hy.
Qed.

Lemma match_known_no_self_edge (module_name imp_normalized : string)
      (known : list string) (es : list Edge) :
  no_self_edge es ->
  no_self_edge (match_known module_name imp_normalized known es).
Proof.
  intros Hes. induction known as [| k known IH]; simpl.
  - exact Hes.
  - destruct (import_matches k imp_normalized); [| exact IH].
    destruct (module_name =? k)%string eqn:Hk; simpl; [exact Hes |].
    intros src dst Hin. apply in_app_iff in Hin.
    destruct Hin as [Hin | [Hin | []]].
    + exact (Hes src dst Hin).
    + inversion Hin; subst. apply String.eqb_neq. exact Hk.
Qed.

Lemma add_edges_no_self_edge (read_file : Path -> option string) (root : Path)
      (ns : list string) (es es' : list Edge) (file_path : Path) :
  no_self_edge es ->
  add_edges read_file root ns es file_path = Ok es' ->
  no_self_edge es'.
Proof.
  intros Hes. unfold add_edges.
  destruct (normalize_module_name file_path root) as [m | e]; simpl;
    [| discriminate].
  destruct (read_file file_path) as [content |]; intros H; inversion H; subst.
  - apply for_in_invariant; [exact Hes |].
    intros s imp _ Hs. unfold resolve_import.
    apply match_known_no_self_edge. exact Hs.
  - exact Hes.
Qed.

(** What a build that returns has computed. *)
Lemma build_dependency_graph_Ok (set_iter : list string -> list string)
      (read_file : Path -> option string) (files : list Path) (root : Path)
      (graph : DependencyGraph) :
  build_dependency_graph set_iter read_file files root = Ok graph ->
  exists st,
    for_each (add_node root) files ([], []) = Ok st
    /\ nodes graph = set_iter (snd st)
    /\ for_each (add_edges read_file root (nodes graph)) files []
       = Ok (edges graph)
    /\ circular graph
       = detect_circular_dependencies (Graph (nodes graph) (edges graph) []).
Proof.
  unfold build_dependency_graph. intros H.
  destruct (for_each (add_node root) files ([], [])) as [st | e];
    simpl in H; [| discriminate].
  destruct (for_each (add_edges read_file root (set_iter (snd st))) files [])
    as [es | e] eqn:Hes; simpl in H; [| discriminate].
  inversion H; subst; simpl. exists st. repeat split. exact Hes.
Qed.

(** C3. Whatever the files hold and in whatever order the node set is
    iterated, no edge of a built graph has the same source and target. *)
Theorem build_dependency_graph_no_self_edge :
  forall (set_iter : list string -> list string)
         (read_file : Path -> option string)
         (files : list Path) (root : Path) (graph : DependencyGraph),
    build_dependency_graph set_iter read_file files root = Ok graph ->
    forall src dst, In (src, dst) (edges graph) -> src <> dst.
Proof.
  intros set_iter read_file files root graph Hbuild.
  destruct (build_dependency_graph_Ok _ _ _ _ _ Hbuild)
    as [st [_ [_ [Hedges _]]]].
  change (no_self_edge (edges graph)).
  apply (for_each_invariant no_self_edge
           (add_edges read_file root (nodes graph)) files) with (s := []);
    [| intros src dst [] | exact Hedges].
  intros s x s' _ Hs Hb. exact (add_edges_no_self_edge _ _ _ _ _ _ Hs Hb).
Qed.

Lemma build_dependency_graph_no_self_edge_witness :
  build_dependency_graph insertion_order Example.self_import_fs
    [Example.file_a; Example.file_b] Example.root
  = Ok (Graph ["a"; "b"] [("a", "b"); ("b", "a")] [("a", "b")])
  /\ "a" <> "b".
Proof.
  assert (Hbuild :
            build_dependency_graph insertion_order Example.self_import_fs
              [Example.file_a; Example.file_b] Example.root
            = Ok (Graph ["a"; "b"] [("a", "b"); ("b", "a")] [("a", "b")]))
    by (vm_compute; reflexivity).
  split; [exact Hbuild |].
  apply (build_dependency_graph_no_self_edge _ _ _ _ _ Hbuild).
  simpl. left. reflexivity.
Defined.

(** C9. Resolving a reference ends at the first node, in iteration order, that
    passes the suffix test: an edge to that node is appended when it differs
    from the module of the referencing file, and nothing is appended when it
    is that module, whatever nodes come later in the order. *)
Theorem resolve_import_stops_at_first_match :
  forall (module_name imp : string) (before after : list string)
         (known_module : string) (es : list Edge),
    (forall n, In n before -> import_matches n (normalized_import imp) = false) ->
    import_matches known_module (normalized_import imp) = true ->
    resolve_import (before ++ known_module :: after) module_name es imp
    = if (module_name =? known_module)%string then es
      else es ++ [(module_name, known_module)].
Proof.
  intros module_name imp before after known_module es Hbefore Hmatch.
  unfold resolve_import. fold (normalized_import imp).
  induction before as [| n before IH]; simpl.
  - rewrite Hmatch. destruct (module_name =? known_module)%string; reflexivity.
  - rewrite (Hbefore n (or_introl eq_refl)).
    apply IH. intros n' Hn'. apply Hbefore. right. exact Hn'.
Qed.

Lemma resolve_import_stops_at_first_match_witness :
  import_matches "core/io" (normalized_import "utils") = false
  /\ import_matches "a/utils" (normalized_import "utils") = true
  /\ import_matches "b/utils" (normalized_import "utils") = true
  /\ resolve_import ["core/io"; "a/utils"; "b/utils"] "a/utils" [] "utils" = []
  /\ resolve_import ["core/io"; "a/utils"; "b/utils"] "b/utils" [] "utils"
     = [("b/utils", "a/utils")].
Proof.
  assert (Hio : forall n, In n ["core/io"] ->
                          import_matches n (normalized_import "utils") = false)
    by (intros n [<- | []]; reflexivity).
  assert (Ha : import_matches "a/utils" (normalized_import "utils") = true)
    by reflexivity.
  split; [reflexivity |]. split; [exact Ha |]. split; [reflexivity |]. split.
  - exact (resolve_import_stops_at_first_match "a/utils" "utils" ["core/io"]
             ["b/utils"] "a/utils" [] Hio Ha).
  - exact (resolve_import_stops_at_first_match "b/utils" "utils" ["core/io"]
             ["b/utils"] "a/utils" [] Hio Ha).
Defined.

(** The first loop of the build. *)
Lemma add_node_total (root : Path) (files : list Path) :
  (forall p, In p files -> exists m, normalize_module_name p root = Ok m) ->
  forall st, exists st', for_each (add_node root) files st = Ok st'.
Proof.
  intros Hnorm. apply for_each_total.
  intros [mm ns] p Hp. destruct (Hnorm p Hp) as [m Hm].
  unfold add_node. rewrite Hm. simpl. eexists. reflexivity.
Qed.

Lemma set_add_In (s : list string) (x y : string) :
  In y (Py.set_add s x) <-> In y s \/ y = x.
Proof.
  unfold Py.set_add. destruct (Py.mem x s) eqn:Hmem.
  - apply mem_In in Hmem. split; [auto | intros [H | ->]; assumption].
  - rewrite in_app_iff. simpl. intuition.
Qed.

(** Every file's module is in the node set the first loop leaves. *)
Lemma add_node_collects (root : Path) (files : list Path) :
  forall st st' p m,
    for_each (add_node root) files st = Ok st' ->
    (In m (snd st) \/ (In p files /\ normalize_module_name p root = Ok m)) ->
    In m (snd st').
Proof.
  induction files as [| q files IH]; intros [mm ns] st' p m Hrun Hin;
    simpl in Hrun.
  - inversion Hrun; subst. destruct Hin as [Hin | [[] _]]. exact Hin.
  - destruct (normalize_module_name q root) as [mq | e] eqn:Hq;
      simpl in Hrun; [| discriminate].
    apply (IH _ st' p m Hrun). simpl.
    destruct Hin as [Hin | [[Heq | Hin] Hm]].
    + left. apply set_add_In. left. exact Hin.
    + subst q. left. apply set_add_In. right. congruence.
    + right. split; assumption.
Qed.

Lemma add_edges_total (read_file : Path -> option string) (root : Path)
      (ns : list string) (files : list Path) :
  (forall p, In p files -> exists m, normalize_module_name p root = Ok m) ->
  forall es, exists es',
    for_each (add_edges read_file root ns) files es = Ok es'.
Proof.
  intros Hnorm. apply for_each_total.
  intros es p Hp. destruct (Hnorm p Hp) as [m Hm].
  unfold add_edges. rewrite Hm. simpl.
  destruct (read_file p); eexists; reflexivity.
Qed.

(** C6. A file that cannot be read does not stop the build: with every path
    under the scan root the build returns a graph; the module of the
    unreadable file is one of its nodes; the pass of the edge loop over that
    file leaves the edge list as it was, so the edges of the graph are those
    the loop gives over the other files. *)
Theorem unreadable_file_adds_node_and_no_edge :
  forall (set_iter : list string -> list string)
         (read_file : Path -> option string) (root : Path)
         (before : list Path) (file_path : Path) (after : list Path),
    (forall l x, In x l -> In x (set_iter l)) ->
    read_file file_path = None ->
    (forall p, In p (before ++ file_path :: after) ->
               exists m, normalize_module_name p root = Ok m) ->
    exists graph module_name,
      build_dependency_graph set_iter read_file
        (before ++ file_path :: after) root = Ok graph
      /\ normalize_module_name file_path root = Ok module_name
      /\ In module_name (nodes graph)
      /\ (forall es,
             add_edges read_file root (nodes graph) es file_path = Ok es)
      /\ for_each (add_edges read_file root (nodes graph)) (before ++ after) []
         = Ok (edges graph).
Proof.
  intros set_iter read_file root before file_path after Hiter Hread Hnorm.
  set (files := before ++ file_path :: after) in *.
  destruct (add_node_total root files Hnorm ([], [])) as [st Hst].
  destruct (add_edges_total read_file root (set_iter (snd st)) files Hnorm [])
    as [es Hes].
  assert (Hfile : In file_path files)
    by (apply in_app_iff; right; left; reflexivity).
  destruct (Hnorm file_path Hfile) as [m Hm].
  assert (Hskip : forall es0,
             add_edges read_file root (set_iter (snd st)) es0 file_path
             = Ok es0).
  { intros es0. unfold add_edges. rewrite Hm. simpl. rewrite Hread.
    reflexivity. }
  exists (Graph (set_iter (snd st)) es
            (detect_circular_dependencies (Graph (set_iter (snd st)) es []))).
  exists m. simpl. repeat split.
  - unfold build_dependency_graph. fold files. rewrite Hst. simpl.
    rewrite Hes. simpl. reflexivity.
  - exact Hm.
  - apply Hiter. apply (add_node_collects root files _ st file_path m Hst).
    right. split; assumption.
  - exact Hskip.
  - unfold files in Hes. rewrite for_each_app in Hes. rewrite for_each_app.
    destruct (for_each (add_edges read_file root (set_iter (snd st))) before [])
      as [es1 | e]; simpl in *; [| discriminate].
    rewrite Hskip in Hes. simpl in Hes. exact Hes.
Qed.

Lemma unreadable_file_adds_node_and_no_edge_witness :
  Example.unreadable_fs Example.file_b = None
  /\ exists graph module_name,
      build_dependency_graph insertion_order Example.unreadable_fs
        ([Example.file_a] ++ Example.file_b :: [Example.file_c]) Example.root
      = Ok graph
      /\ normalize_module_name Example.file_b Example.root = Ok module_name
      /\ In module_name (nodes graph)
      /\ (forall es,
             add_edges Example.unreadable_fs Example.root (nodes graph) es
               Example.file_b = Ok es)
      /\ for_each (add_edges Example.unreadable_fs Example.root (nodes graph))
           ([Example.file_a] ++ [Example.file_c]) []
         = Ok (edges graph).
Proof.
  assert (Hread : Example.unreadable_fs Example.file_b = None) by reflexivity.
  split; [exact Hread |].
  apply (unreadable_file_adds_node_and_no_edge insertion_order
           Example.unreadable_fs Example.root
           [Example.file_a] Example.file_b [Example.file_c]).
  - intros l x H. exact H.
  - exact Hread.
  - intros p [H | [H | [H | []]]]; subst p; eexists; reflexivity.
Defined.

(* ================================================================= *)
(** ** Connectivity *)

Lemma dict_find_set {V : Type} (d : Py.dict V) (k k' : string) (v : V) :
  Py.dict_find (Py.dict_set d k v) k'
  = if (k =? k')%string then Some v else Py.dict_find d k'.
Proof.
  induction d as [| [k0 v0] d IH]; simpl.
  - rewrite String.eqb_sym. destruct (k' =? k)%string; reflexivity.
  - destruct (k0 =? k)%string eqn:H0; simpl.
    + apply String.eqb_eq in H0. subst k0.
      destruct (k =? k')%string; reflexivity.
    + rewrite IH. destruct (k0 =? k')%string eqn:H1; [| reflexivity].
      apply String.eqb_eq in H1. subst k0. rewrite String.eqb_sym, H0.
      reflexivity.
Qed.

Lemma dict_find_zeroes (ns : list string) (m : string) :
  Py.dict_find (for_in ns [] (fun d node => Py.dict_set d node 0)) m
  = if Py.mem m ns then Some 0 else None.
Proof.
  assert (Hgen : forall d,
             Py.dict_find (for_in ns d (fun d node => Py.dict_set d node 0)) m
             = if Py.mem m ns then Some 0 else Py.dict_find d m).
  { unfold for_in. induction ns as [| n ns IH]; intros d; simpl.
    - reflexivity.
    - rewrite IH, dict_find_set. rewrite (String.eqb_sym m n).
      destruct (n =? m)%string; simpl; destruct (Py.mem m ns); reflexivity. }
  rewrite Hgen. reflexivity.
Qed.

Lemma dict_find_bumps (sel : Edge -> string) (es : list Edge) (m : string) :
  forall d,
    Py.dict_find (for_in es d (fun d e => bump d (sel e))) m
    = match Py.dict_find d m with
      | Some c => Some (c + count_edges sel es m)
      | None => if (0 <? count_edges sel es m)%nat
                then Some (count_edges sel es m) else None
      end.
Proof.
  unfold for_in, count_edges.
  induction es as [| e es IH]; intros d; simpl.
  - destruct (Py.dict_find d m); [rewrite Nat.add_0_r |]; reflexivity.
  - rewrite IH. unfold bump. rewrite dict_find_set.
    destruct (sel e =? m)%string eqn:Hsel; simpl.
    + apply String.eqb_eq in Hsel. subst m. unfold Py.dict_get.
      destruct (Py.dict_find d (sel e)); f_equal; lia.
    + reflexivity.
Qed.

Lemma connectivity_split (graph : DependencyGraph) :
  connectivity graph
  = (for_in (edges graph)
       (for_in (nodes graph) [] (fun d node => Py.dict_set d node 0))
       (fun d e => bump d (snd e)),
     for_in (edges graph)
       (for_in (nodes graph) [] (fun d node => Py.dict_set d node 0))
       (fun d e => bump d (fst e))).
Proof.
  unfold connectivity.
  generalize (for_in (nodes graph) [] (fun d node => Py.dict_set d node 0)) at 1 3.
  generalize (for_in (nodes graph) [] (fun d node => Py.dict_set d node 0)).
  unfold for_in. induction (edges graph) as [| [s t] es IH]; intros o i; simpl.
  - reflexivity.
  - rewrite IH. reflexivity.
Qed.

(** The two maps, whatever key is looked up. *)
Lemma connectivity_lookup (graph : DependencyGraph) (m : string) :
  Py.dict_find (incoming_of graph) m
  = (if Py.mem m (nodes graph) || (0 <? in_degree graph m)%nat
     then Some (in_degree graph m) else None)
  /\ Py.dict_find (outgoing_of graph) m
     = (if Py.mem m (nodes graph) || (0 <? out_degree graph m)%nat
        then Some (out_degree graph m) else None).
Proof.
  unfold incoming_of, outgoing_of, in_degree, out_degree.
  rewrite connectivity_split. simpl.
  rewrite !dict_find_bumps, !dict_find_zeroes.
  destruct (Py.mem m (nodes graph)); simpl; split; reflexivity.
Qed.

Lemma insert_by_In {A : Type} (key : A -> Z) (x y : A) (l : list A) :
  In y (insert_by key x l) <-> y = x \/ In y l.
Proof.
  induction l as [| z l IH]; simpl.
  - intuition.
  - destruct (key x <=? key z)%Z; simpl; [intuition |].
    rewrite IH. intuition.
Qed.

Lemma sorted_In {A : Type} (key : A -> Z) (y : A) (l : list A) :
  In y (sorted key l) <-> In y l.
Proof.
  unfold sorted. induction l as [| x l IH]; simpl.
  - reflexivity.
  - rewrite insert_by_In, IH. intuition.
Qed.

Lemma presented_filter (counts : Py.dict nat) :
  presented counts
  = filter (fun p => (0 <? snd p)%nat)
           (firstn 10 (sorted (fun x => (- Z.of_nat (snd x))%Z) counts)).
Proof.
  unfold presented, for_in.
  generalize (firstn 10 (sorted (fun x => (- Z.of_nat (snd x))%Z) counts)).
  intros l.
  assert (Hgen : forall shown : list (string * nat),
             fold_left
               (fun shown (p : string * nat) =>
                  let '(node, count) := p in
                  if (0 <? count)%nat then shown ++ [(node, count)] else shown)
               l shown
             = shown ++ filter (fun p => (0 <? snd p)%nat) l).
  { induction l as [| [node count] l IH]; intros shown;
      cbn [fold_left filter snd].
    - rewrite app_nil_r. reflexivity.
    - rewrite IH. destruct (0 <? count)%nat.
      + rewrite <- app_assoc. reflexivity.
      + reflexivity. }
  apply Hgen.
Qed.

Lemma dict_set_keys {V : Type} (d : Py.dict V) (k : string) (v : V) (k' : string) :
  In k' (map fst (Py.dict_set d k v)) <-> k' = k \/ In k' (map fst d).
Proof.
  induction d as [| [k0 v0] d IH]; simpl.
  - intuition.
  - destruct (k0 =? k)%string eqn:H0; simpl.
    + apply String.eqb_eq in H0. subst k0. intuition.
    + rewrite IH. intuition.
Qed.

Lemma dict_set_NoDup {V : Type} (d : Py.dict V) (k : string) (v : V) :
  NoDup (map fst d) -> NoDup (map fst (Py.dict_set d k v)).
Proof.
  induction d as [| [k0 v0] d IH]; simpl; intros Hnd.
  - constructor; [intros [] | constructor].
  - inversion Hnd as [| ? ? Hk0 Hd]; subst.
    destruct (k0 =? k)%string eqn:H0; simpl.
    + constructor; assumption.
    + constructor; [| apply IH; exact Hd].
      rewrite dict_set_keys. intros [Heq | Hin]; [| exact (Hk0 Hin)].
      subst k0. rewrite String.eqb_refl in H0. discriminate.
Qed.

Lemma dict_find_In {V : Type} (d : Py.dict V) (k : string) (v : V) :
  NoDup (map fst d) -> In (k, v) d -> Py.dict_find d k = Some v.
Proof.
  induction d as [| [k0 v0] d IH]; simpl; intros Hnd Hin; [contradiction |].
  inversion Hnd as [| ? ? Hk0 Hd]; subst.
  destruct Hin as [Heq | Hin].
  - inversion Heq; subst. rewrite String.eqb_refl. reflexivity.
  - destruct (k0 =? k)%string eqn:H0; [| exact (IH Hd Hin)].
    apply String.eqb_eq in H0. subst k0. exfalso. apply Hk0.
    apply (in_map fst) in Hin. exact Hin.
Qed.

Lemma connectivity_NoDup (graph : DependencyGraph) :
  NoDup (map fst (incoming_of graph)) /\ NoDup (map fst (outgoing_of graph)).
Proof.
  unfold incoming_of, outgoing_of. rewrite connectivity_split. simpl.
  assert (Hzero : NoDup (map fst (for_in (nodes graph) []
                                    (fun d node => Py.dict_set d node 0)))).
  { apply (for_in_invariant (fun d : Py.dict nat => NoDup (map fst d)));
      [constructor |].
    intros d n _ Hd. apply dict_set_NoDup. exact Hd. }
  split;
    (apply (for_in_invariant (fun d : Py.dict nat => NoDup (map fst d)));
     [exact Hzero | intros d e _ Hd; apply dict_set_NoDup; exact Hd]).
Qed.

Lemma In_firstn {A : Type} (n : nat) (l : list A) (x : A) :
  In x (firstn n l) -> In x l.
Proof.
  intros H. rewrite <- (firstn_skipn n l). apply in_app_iff. left. exact H.
Qed.

Lemma presented_entries (counts : Py.dict nat) :
  List.length (presented counts) <= 10
  /\ forall p, In p (presented counts) -> 0 < snd p /\ In p counts.
Proof.
  rewrite presented_filter. split.
  - etransitivity; [apply filter_length_le |]. apply firstn_le_length.
  - intros p Hp. apply filter_In in Hp. destruct Hp as [Hp Hpos].
    split; [apply Nat.ltb_lt; exact Hpos |].
    apply In_firstn in Hp. apply sorted_In in Hp. exact Hp.
Qed.

(** C7. Each module of the graph is a key of both maps, bound in [incoming] to
    the number of edges that end in it and in [outgoing] to the number of
    edges that start from it, zero included; a ranking shows at most ten
    entries, each with a positive count that is the module's count in the
    map. *)
Theorem connectivity_counts_edges :
  forall graph : DependencyGraph,
    (forall m, In m (nodes graph) ->
       Py.dict_find (incoming_of graph) m = Some (in_degree graph m)
       /\ Py.dict_find (outgoing_of graph) m = Some (out_degree graph m))
    /\ List.length (presented (incoming_of graph)) <= 10
    /\ List.length (presented (outgoing_of graph)) <= 10
    /\ (forall m c, In (m, c) (presented (incoming_of graph)) ->
          0 < c /\ c = in_degree graph m)
    /\ (forall m c, In (m, c) (presented (outgoing_of graph)) ->
          0 < c /\ c = out_degree graph m).
Proof.
  intros graph.
  destruct (connectivity_NoDup graph) as [Hin Hout].
  destruct (presented_entries (incoming_of graph)) as [Hlen_in Hshown_in].
  destruct (presented_entries (outgoing_of graph)) as [Hlen_out Hshown_out].
  split; [| split; [exact Hlen_in | split; [exact Hlen_out | split]]].
  - intros m Hm. apply mem_In in Hm.
    destruct (connectivity_lookup graph m) as [Hi Ho].
    rewrite Hm in Hi, Ho. simpl in Hi, Ho. split; assumption.
  - intros m c Hmc. destruct (Hshown_in _ Hmc) as [Hpos Hentry].
    simpl in Hpos. split; [exact Hpos |].
    apply (dict_find_In _ _ _ Hin) in Hentry.
    destruct (connectivity_lookup graph m) as [Hi _].
    rewrite Hentry in Hi.
    destruct (Py.mem m (nodes graph) || (0 <? in_degree graph m)%nat);
      congruence.
  - intros m c Hmc. destruct (Hshown_out _ Hmc) as [Hpos Hentry].
    simpl in Hpos. split; [exact Hpos |].
    apply (dict_find_In _ _ _ Hout) in Hentry.
    destruct (connectivity_lookup graph m) as [_ Ho].
    rewrite Hentry in Ho.
    destruct (Py.mem m (nodes graph) || (0 <? out_degree graph m)%nat);
      congruence.
Qed.

Lemma connectivity_counts_edges_witness :
  (Py.dict_find (outgoing_of Example.chain) "A" = Some 2
   /\ Py.dict_find (outgoing_of Example.chain) "B" = Some 1
   /\ Py.dict_find (outgoing_of Example.chain) "C" = Some 0)
  /\ (Py.dict_find (incoming_of Example.chain) "A" = Some 0
      /\ Py.dict_find (incoming_of Example.chain) "B" = Some 1
      /\ Py.dict_find (incoming_of Example.chain) "C" = Some 2)
  /\ presented (incoming_of Example.chain) = [("C", 2); ("B", 1)]
  /\ presented (outgoing_of Example.chain) = [("A", 2); ("B", 1)].
Proof.
  destruct (connectivity_counts_edges Example.chain) as [Hmaps _].
  assert (HA : In "A" (nodes Example.chain)) by (simpl; auto).
  assert (HB : In "B" (nodes Example.chain)) by (simpl; auto).
  assert (HC : In "C" (nodes Example.chain)) by (simpl; auto 6).
  destruct (Hmaps "A" HA) as [HiA HoA].
  destruct (Hmaps "B" HB) as [HiB HoB].
  destruct (Hmaps "C" HC) as [HiC HoC].
  repeat split; try assumption; reflexivity.
Defined.

(* ================================================================= *)
(** ** The diagram *)

Lemma slice_to_firstn {A : Type} (l : list A) (k : Z) :
  (0 <= k)%Z -> Py.slice_to l k = firstn (Z.to_nat k) l.
Proof.
  intros Hk. unfold Py.slice_to.
  destruct (k <? 0)%Z eqn:Hneg; [| reflexivity].
  apply Z.ltb_lt in Hneg. lia.
Qed.

Lemma dict_set_fresh {V : Type} (d : Py.dict V) (k : string) (v : V) :
  ~ In k (map fst d) -> Py.dict_set d k v = d ++ [(k, v)].
Proof.
  induction d as [| [k0 v0] d IH]; simpl; intros Hk.
  - reflexivity.
  - destruct (k0 =? k)%string eqn:H0.
    + apply String.eqb_eq in H0. exfalso. apply Hk. left. exact H0.
    + rewrite IH; [reflexivity |]. intros Hin. apply Hk. right. exact Hin.
Qed.

Lemma map_snd_combine_seq {A : Type} (l : list A) (start : nat) :
  map snd (combine (seq start (List.length l)) l) = l.
Proof.
  revert start. induction l as [| x l IH]; intros start; simpl.
  - reflexivity.
  - rewrite IH. reflexivity.
Qed.

Lemma ids_of_keys (selected : list string) : map fst (ids_of selected) = selected.
Proof.
  unfold ids_of, enumerate. rewrite map_map. simpl.
  apply map_snd_combine_seq.
Qed.

(** The identifier loop over nodes that are pairwise different. *)
Lemma node_ids_loop (l : list (nat * string)) :
  NoDup (map snd l) ->
  forall d : Py.dict string,
    (forall p, In p l -> ~ In (snd p) (map fst d)) ->
    for_in l d (fun node_ids p =>
                  let '(i, node) := p in
                  Py.dict_set node_ids node ("N" ++ Py.str_of_nat i)%string)
    = d ++ map (fun p => (snd p, node_id_of (fst p))) l.
Proof.
  unfold for_in. induction l as [| [i node] l IH]; intros Hnd d Hfresh;
    cbn [fold_left map].
  - rewrite app_nil_r. reflexivity.
  - simpl in Hnd. inversion Hnd as [| ? ? Hnode Hrest]; subst.
    rewrite dict_set_fresh by (apply (Hfresh (i, node)); left; reflexivity).
    rewrite IH; [rewrite <- app_assoc; reflexivity | exact Hrest |].
    intros p Hp Hin. rewrite map_app, in_app_iff in Hin. simpl in Hin.
    destruct Hin as [Hin | [Heq | []]].
    + apply (Hfresh p); [right; exact Hp | exact Hin].
    + apply Hnode. rewrite Heq. apply in_map. exact Hp.
Qed.

Lemma NoDup_firstn {A : Type} (n : nat) (l : list A) :
  NoDup l -> NoDup (firstn n l).
Proof.
  intros H. rewrite <- (firstn_skipn n l) in H.
  apply NoDup_app_remove_r in H. exact H.
Qed.

Lemma mermaid_node_ids_selected (graph : DependencyGraph) (max_nodes : Z) :
  NoDup (nodes graph) -> (0 <= max_nodes)%Z ->
  mermaid_node_ids graph max_nodes
  = ids_of (firstn (Z.to_nat max_nodes) (nodes graph)).
Proof.
  intros Hnd Hk. unfold mermaid_node_ids.
  rewrite slice_to_firstn by exact Hk.
  rewrite node_ids_loop.
  - reflexivity.
  - unfold enumerate. rewrite map_snd_combine_seq.
    apply NoDup_firstn. exact Hnd.
  - intros p _ [].
Qed.

Lemma dict_has_keys {V : Type} (d : Py.dict V) (k : string) :
  Py.dict_has d k = true <-> In k (map fst d).
Proof.
  unfold Py.dict_has. induction d as [| [k0 v0] d IH]; simpl.
  - split; [discriminate | intros []].
  - destruct (k0 =? k)%string eqn:H0.
    + apply String.eqb_eq in H0. split; [intros _; left; exact H0 | reflexivity].
    + rewrite IH. split; [intros H; right; exact H |].
      intros [Heq | Hin]; [| exact Hin].
      subst k0. rewrite String.eqb_refl in H0. discriminate.
Qed.

Lemma has_ids_dict_has (ids : Py.dict string) (s d : string) :
  Py.dict_has ids s && Py.dict_has ids d = true <-> has_ids ids (s, d).
Proof.
  unfold has_ids. simpl. rewrite andb_true_iff, !dict_has_keys. reflexivity.
Qed.

(** The connection loop: the pairs added are new, different from one another,
    and are the edges passed whose two ends have an identifier. *)
Lemma mermaid_edge_loop (ids : Py.dict string) (es : list Edge) :
  forall (lines : list string) (added : list Edge),
    NoDup added ->
    exists new,
      for_in es (lines, added) (mermaid_edge_step ids)
      = (lines ++ map (edge_line_of ids) new, added ++ new)
      /\ NoDup (added ++ new)
      /\ (forall e, In e new <-> ~ In e added /\ In e es /\ has_ids ids e).
Proof.
  unfold for_in. induction es as [| [s d] es IH]; intros lines added Hnd;
    cbn [fold_left].
  - exists []. simpl. rewrite !app_nil_r.
    split; [reflexivity | split; [exact Hnd |]].
    intros e. split; [intros [] | intros [_ [[] _]]].
  - unfold mermaid_edge_step at 2.
    destruct (Py.dict_has ids s && Py.dict_has ids d) eqn:Hsel.
    + apply has_ids_dict_has in Hsel.
      destruct (edge_mem (s, d) added) eqn:Hseen; cbn [negb].
      * apply edge_mem_In in Hseen.
        destruct (IH lines added Hnd) as [new [Hrun [Hnd' Hnew]]].
        exists new. split; [exact Hrun | split; [exact Hnd' |]].
        intros e. rewrite Hnew. simpl.
        split; [tauto |].
        intros [Ha [[Heq | He] Hk]]; [subst e; contradiction | tauto].
      * apply edge_mem_not_In in Hseen.
        assert (Hnd1 : NoDup (added ++ [(s, d)])).
        { apply NoDup_app; [exact Hnd | constructor; [intros [] | constructor] |].
          intros x Hx [Heq | []]. subst x. contradiction. }
        destruct (IH (lines ++ [edge_line (Py.dict_get ids s EmptyString)
                                           (Py.dict_get ids d EmptyString)])
                     (added ++ [(s, d)]) Hnd1)
          as [new [Hrun [Hnd' Hnew]]].
        exists ((s, d) :: new). rewrite Hrun. split; [| split].
        -- simpl. rewrite <- !app_assoc. reflexivity.
        -- rewrite <- app_assoc in Hnd'. exact Hnd'.
        -- intros e. simpl. rewrite Hnew. rewrite in_app_iff. simpl. split.
           ++ intros [Heq | [Ha [He Hk]]]; [subst e; tauto | tauto].
           ++ intros [Ha [[Heq | He] Hk]]; [left; exact Heq |].
              destruct (edge_eqb (s, d) e) eqn:Heq.
              ** left. apply edge_eqb_eq. exact Heq.
              ** right. split; [| tauto].
                 intros [Hin | [Heq' | []]]; [contradiction |].
                 apply edge_eqb_eq in Heq'. congruence.
    + assert (Hno : ~ has_ids ids (s, d)).
      { intros H. apply has_ids_dict_has in H. congruence. }
      destruct (IH lines added Hnd) as [new [Hrun [Hnd' Hnew]]].
      exists new. split; [exact Hrun | split; [exact Hnd' |]].
      intros e. rewrite Hnew. simpl.
      split; [tauto |].
      intros [Ha [[Heq | He] Hk]]; [subst e; contradiction | tauto].
Qed.

Lemma mermaid_decl_loop (ids : Py.dict string) (lines : list string) :
  for_in ids lines (fun lines p =>
                      let '(node, node_id) := p in
                      lines ++ [node_decl_line node node_id])
  = lines ++ map (fun p => node_decl_line (fst p) (snd p)) ids.
Proof.
  unfold for_in. revert lines.
  induction ids as [| [node node_id] ids IH]; intros lines; cbn [fold_left map].
  - rewrite app_nil_r. reflexivity.
  - rewrite IH, <- app_assoc. reflexivity.
Qed.

Lemma mermaid_style_loop (ids : Py.dict string) (circ : list Edge)
      (lines : list string) :
  exists styles,
    for_in circ lines (fun lines e =>
                         let '(src, dst) := e in
                         if Py.dict_has ids src && Py.dict_has ids dst
                         then lines ++ [link_style_line] else lines)
    = lines ++ styles
    /\ Forall (eq link_style_line) styles.
Proof.
  unfold for_in. revert lines.
  induction circ as [| [src dst] circ IH]; intros lines; cbn [fold_left].
  - exists []. rewrite app_nil_r. split; [reflexivity | constructor].
  - destruct (Py.dict_has ids src && Py.dict_has ids dst).
    + destruct (IH (lines ++ [link_style_line])) as [styles [Hrun Hall]].
      exists (link_style_line :: styles). rewrite Hrun, <- app_assoc.
      split; [reflexivity | constructor; [reflexivity | exact Hall]].
    + apply IH.
Qed.

Lemma ids_of_length (selected : list string) :
  List.length (ids_of selected) = List.length selected.
Proof.
  rewrite <- (ids_of_keys selected) at 2. rewrite length_map. reflexivity.
Qed.

(** C8. For a bound [max_nodes] that is not negative, the lines of the
    diagram are the header, one declaration for each of the first [max_nodes]
    nodes of the iteration order (all the nodes when there are fewer), one
    connection line for each pair of a duplicate-free list that holds exactly
    the edges with both ends selected, the style lines, and the footer. *)
Theorem generate_mermaid_truncates_and_dedups :
  forall (graph : DependencyGraph) (max_nodes : Z),
    NoDup (nodes graph) ->
    (0 <= max_nodes)%Z ->
    let selected := firstn (Z.to_nat max_nodes) (nodes graph) in
    exists (decls : list string) (pairs : list Edge) (styles : list string),
      generate_mermaid_lines graph max_nodes
      = mermaid_header ++ decls ++ map (edge_line_of (ids_of selected)) pairs
          ++ styles ++ mermaid_footer
      /\ decls = map (fun p => node_decl_line (fst p) (snd p)) (ids_of selected)
      /\ List.length decls
         = Nat.min (Z.to_nat max_nodes) (List.length (nodes graph))
      /\ NoDup pairs
      /\ (forall src dst,
            In (src, dst) pairs <->
            In (src, dst) (edges graph) /\ In src selected /\ In dst selected)
      /\ Forall (eq link_style_line) styles.
Proof.
  intros graph max_nodes Hnd Hk selected.
  unfold generate_mermaid_lines.
  rewrite (mermaid_node_ids_selected graph max_nodes Hnd Hk).
  fold selected. set (ids := ids_of selected).
  rewrite mermaid_decl_loop.
  set (lines1 := mermaid_header ++ _).
  destruct (mermaid_edge_loop ids (edges graph) lines1 [] (NoDup_nil _))
    as [pairs [Hrun [Hpairs Hchar]]].
  unfold mermaid_edge_step in Hrun. cbv zeta in Hrun.
  destruct (mermaid_style_loop ids (circular graph)
              (lines1 ++ map (edge_line_of ids) pairs))
    as [styles [Hstyle Hall]].
  exists (map (fun p => node_decl_line (fst p) (snd p)) ids), pairs, styles.
  split; [| split; [reflexivity | split; [| split; [exact Hpairs | split]]]].
  - rewrite Hrun, Hstyle. unfold lines1. rewrite <- !app_assoc. reflexivity.
  - rewrite length_map. unfold ids. rewrite ids_of_length.
    unfold selected. apply length_firstn.
  - intros src dst. rewrite (Hchar (src, dst)). unfold has_ids, ids.
    rewrite ids_of_keys. simpl. tauto.
  - exact Hall.
Qed.

Lemma generate_mermaid_truncates_and_dedups_witness :
  generate_mermaid_lines Example.complete5 2
  = mermaid_header
      ++ [node_decl_line "A" "N0"; node_decl_line "B" "N1";
          edge_line "N0" "N1"; edge_line "N1" "N0"; link_style_line]
      ++ mermaid_footer
  /\ exists (decls : list string) (pairs : list Edge) (styles : list string),
      generate_mermaid_lines Example.complete5 2
      = mermaid_header ++ decls
          ++ map (edge_line_of (ids_of ["A"; "B"])) pairs
          ++ styles ++ mermaid_footer
      /\ decls = map (fun p => node_decl_line (fst p) (snd p))
                     (ids_of ["A"; "B"])
      /\ List.length decls = 2
      /\ NoDup pairs
      /\ (forall src dst,
            In (src, dst) pairs <->
            In (src, dst) (edges Example.complete5)
            /\ In src ["A"; "B"] /\ In dst ["A"; "B"])
      /\ Forall (eq link_style_line) styles.
Proof.
  split; [vm_compute; reflexivity |].
  assert (Hnd : NoDup (nodes Example.complete5)).
  { simpl. unfold Example.five_nodes.
    repeat (constructor; [simpl; intros H; intuition discriminate |]).
    constructor. }
  assert (Hk : (0 <= 2)%Z) by lia.
  exact (generate_mermaid_truncates_and_dedups Example.complete5 2 Hnd Hk).
Defined.

(* ================================================================= *)
(** ** Import extraction: the order of the references *)

Lemma match_at_start (r : Re.regex) (prev : option ascii) (pos : nat)
      (s : string) (m : Re.rmatch) :
  Re.match_at r prev pos s = Some m -> Re.m_start m = pos.
Proof.
  unfold Re.match_at.
  destruct (Re.run r Some (Re.MState pos prev s EmptyString)); intros H;
    inversion H; reflexivity.
Qed.

Lemma scan_starts (r : Re.regex) (s : string) :
  forall prev pos skip m,
    In m (Re.scan r prev pos skip s) -> pos <= Re.m_start m.
Proof.
  induction s as [| a s IH]; intros prev pos skip m; cbn [Re.scan].
  - destruct skip; [destruct (Re.match_at r prev pos EmptyString) eqn:Hm |];
      simpl; try tauto.
    intros [Heq | []]. subst. apply match_at_start in Hm. lia.
  - destruct skip as [| skip].
    + destruct (Re.match_at r prev pos (String a s)) as [m0 |] eqn:Hm.
      * intros [Heq | Hin].
        -- subst. apply match_at_start in Hm. lia.
        -- apply IH in Hin. lia.
      * intros Hin. apply IH in Hin. lia.
    + intros Hin. apply IH in Hin. lia.
Qed.

Lemma scan_sorted (r : Re.regex) (s : string) :
  forall prev pos skip,
    StronglySorted lt (map Re.m_start (Re.scan r prev pos skip s)).
Proof.
  induction s as [| a s IH]; intros prev pos skip; cbn [Re.scan].
  - destruct skip; [destruct (Re.match_at r prev pos EmptyString) |];
      simpl; repeat constructor.
  - assert (Hcons : forall m0,
               Re.match_at r prev pos (String a s) = Some m0 ->
               forall skip',
                 StronglySorted lt
                   (map Re.m_start (m0 :: Re.scan r (Some a) (S pos) skip' s))).
    { intros m0 Hm skip'. simpl. constructor; [apply IH |].
      apply Forall_forall. intros x Hx. apply in_map_iff in Hx.
      destruct Hx as [m1 [Hx Hin]]. subst x.
      apply scan_starts in Hin. apply match_at_start in Hm. lia. }
    destruct skip as [| skip].
    + destruct (Re.match_at r prev pos (String a s)) as [m0 |] eqn:Hm.
      * apply Hcons. reflexivity.
      * apply IH.
    + apply IH.
Qed.

Lemma scan_occurs (r : Re.regex) (s : string) :
  forall prev pos skip m,
    In m (Re.scan r prev pos skip s) ->
    exists before rest,
      s = (before ++ rest)%string
      /\ pos + String.length before = Re.m_start m
      /\ Re.match_at r (last_char prev before) (Re.m_start m) rest = Some m.
Proof.
  induction s as [| a s IH]; intros prev pos skip m; cbn [Re.scan].
  - destruct skip; [destruct (Re.match_at r prev pos EmptyString) eqn:Hm |];
      simpl; try tauto.
    intros [Heq | []]. subst. exists EmptyString, EmptyString. simpl.
    rewrite (match_at_start _ _ _ _ _ Hm) in *.
    repeat split; [lia | exact Hm].
  - assert (Hlater : forall skip',
               In m (Re.scan r (Some a) (S pos) skip' s) ->
               exists before rest,
                 String a s = (before ++ rest)%string
                 /\ pos + String.length before = Re.m_start m
                 /\ Re.match_at r (last_char prev before) (Re.m_start m) rest
                    = Some m).
    { intros skip' Hin. destruct (IH _ _ _ _ Hin) as [b [rest [Hs [Hlen Hm]]]].
      exists (String a b), rest. simpl. subst s.
      repeat split; [lia | exact Hm]. }
    assert (Hhere : Re.match_at r prev pos (String a s) = Some m ->
               exists before rest,
                 String a s = (before ++ rest)%string
                 /\ pos + String.length before = Re.m_start m
                 /\ Re.match_at r (last_char prev before) (Re.m_start m) rest
                    = Some m).
    { intros Hm. exists EmptyString, (String a s). simpl.
      rewrite (match_at_start _ _ _ _ _ Hm) in *.
      repeat split; [lia | exact Hm]. }
    destruct skip as [| skip].
    + destruct (Re.match_at r prev pos (String a s)) as [m0 |] eqn:Hm.
      * intros [Heq | Hin]; [subst m0; apply Hhere; reflexivity |].
        exact (Hlater _ Hin).
      * apply Hlater.
    + apply Hlater.
Qed.

Lemma finditer_sorted (r : Re.regex) (content : string) :
  StronglySorted lt (map Re.m_start (Re.finditer r content)).
Proof. apply scan_sorted. Qed.

Lemma finditer_occurs (r : Re.regex) (content : string) (m : Re.rmatch) :
  In m (Re.finditer r content) -> occurs_in r content m.
Proof.
  intros Hin. destruct (scan_occurs _ _ _ _ _ _ Hin) as [b [rest [Hs [Hl Hm]]]].
  exists b, rest. repeat split; assumption.
Qed.

Lemma sorted_starts_filter (keep : Re.rmatch -> bool) (ms : list Re.rmatch) :
  StronglySorted lt (map Re.m_start ms) ->
  StronglySorted lt (map Re.m_start (filter keep ms)).
Proof.
  induction ms as [| m ms IH]; simpl; intros Hs; [constructor |].
  inversion Hs as [| ? ? Hrest Hall]; subst.
  destruct (keep m); simpl; [| exact (IH Hrest)].
  constructor; [exact (IH Hrest) |].
  apply Forall_forall. intros x Hx. apply in_map_iff in Hx.
  destruct Hx as [m1 [Hx Hin]]. subst x. apply filter_In in Hin.
  rewrite Forall_forall in Hall. apply Hall. apply in_map. apply Hin.
Qed.

Lemma extract_imports_python_runs (content : string) :
  extract_imports_python content
  = map Re.group1 (Re.finditer re_py_from content)
    ++ map (fun m => python_import_name (Re.group1 m))
           (Re.finditer re_py_import content).
Proof.
  unfold extract_imports_python.
  etransitivity;
    [apply (for_in_append_all (fun m => python_import_name (Re.group1 m))) |].
  f_equal. apply (for_in_append_all Re.group1).
Qed.

Lemma extract_imports_rust_runs (content : string) :
  extract_imports_rust content
  = map Re.group1 (Re.finditer re_rs_use content)
    ++ map Re.group1 (Re.finditer re_rs_mod content).
Proof.
  unfold extract_imports_rust.
  etransitivity; [apply (for_in_append_all Re.group1) |].
  f_equal. apply (for_in_append_all Re.group1).
Qed.

Lemma extract_imports_js_runs (content : string) :
  extract_imports_js content
  = map Re.group1 (filter js_from_kept (Re.finditer re_js_from content))
    ++ map Re.group1
           (filter js_require_kept (Re.finditer re_js_require content)).
Proof.
  unfold extract_imports_js.
  etransitivity; [apply (for_in_append js_require_kept Re.group1) |].
  f_equal. apply (for_in_append js_from_kept Re.group1).
Qed.

Lemma python_located_refs (content : string) :
  extract_imports_python content = map snd (python_located content).
Proof.
  rewrite extract_imports_python_runs. unfold python_located.
  rewrite map_app, !map_map. reflexivity.
Qed.

(** C4, the claim refuted. A plain [import] at offset 0 comes before a
    [from ... import] at offset 9 in the text, and after it in the result. *)
Lemma extract_imports_python_not_in_text_order :
  extract_imports_python Example.import_then_from = ["b"; "a"]
  /\ python_located Example.import_then_from = [(9, "b"); (0, "a")]
  /\ ~ StronglySorted le (map fst (python_located Example.import_then_from)).
Proof.
  split; [vm_compute; reflexivity |].
  assert (Hloc : python_located Example.import_then_from = [(9, "b"); (0, "a")])
    by (vm_compute; reflexivity).
  split; [exact Hloc |].
  rewrite Hloc. simpl. intros Hsorted.
  inversion Hsorted as [| ? ? _ Hall]; subst.
  inversion Hall as [| ? ? Hle _]; subst. lia.
Qed.

(** C4, amended. The result of each extractor is one run per pattern, in the
    order the function applies its patterns (Python: [from] statements, then
    plain imports; Rust: [use], then [mod]; JavaScript: [from] forms, then
    [require] calls); the matches of a pattern, and so those a run keeps,
    come in strictly increasing offset, each a match of the pattern at its
    offset. *)
Theorem extract_imports_ordered_within_each_pattern :
  forall content : string,
    extract_imports_python content
    = map Re.group1 (Re.finditer re_py_from content)
      ++ map (fun m => python_import_name (Re.group1 m))
             (Re.finditer re_py_import content)
    /\ extract_imports_rust content
       = map Re.group1 (Re.finditer re_rs_use content)
         ++ map Re.group1 (Re.finditer re_rs_mod content)
    /\ extract_imports_js content
       = map Re.group1 (filter js_from_kept (Re.finditer re_js_from content))
         ++ map Re.group1
                (filter js_require_kept (Re.finditer re_js_require content))
    /\ forall r : Re.regex,
        StronglySorted lt (map Re.m_start (Re.finditer r content))
        /\ (forall keep : Re.rmatch -> bool,
              StronglySorted lt
                (map Re.m_start (filter keep (Re.finditer r content))))
        /\ Forall (occurs_in r content) (Re.finditer r content).
Proof.
  intros content.
  split; [apply extract_imports_python_runs |].
  split; [apply extract_imports_rust_runs |].
  split; [apply extract_imports_js_runs |].
  intros r. split; [apply finditer_sorted |].
  split; [intros keep; apply sorted_starts_filter; apply finditer_sorted |].
  apply Forall_forall. intros m. apply finditer_occurs.
Qed.

(* ================================================================= *)
(** ** Module identity: errors and results *)

Lemma relative_to_app (root rel : Path) : relative_to (root ++ rel) root = Ok rel.
Proof.
  induction root as [| r root IH]; simpl.
  - destruct rel; reflexivity.
  - rewrite String.eqb_refl. exact IH.
Qed.

Lemma relative_to_Ok (path root rel : Path) :
  relative_to path root = Ok rel -> path = root ++ rel.
Proof.
  revert path. induction root as [| r root IH]; intros path.
  - destruct path; simpl; intros H; inversion H; reflexivity.
  - destruct path as [| p path]; simpl; [discriminate |].
    destruct (p =? r)%string eqn:Hp; [| discriminate].
    apply String.eqb_eq in Hp. subst p. intros H. f_equal. apply IH. exact H.
Qed.

Lemma relative_to_Raise (path root : Path) (e : exn) :
  relative_to path root = Raise e -> e = ValueError.
Proof.
  revert path. induction root as [| r root IH]; intros path.
  - destruct path; simpl; discriminate.
  - destruct path as [| p path]; simpl; [intros H; inversion H; reflexivity |].
    destruct (p =? r)%string; [apply IH | intros H; inversion H; reflexivity].
Qed.

Lemma last_item_app {A : Type} (l : list A) (x : A) :
  Py.last_item (l ++ [x]) = Ok x.
Proof. unfold Py.last_item. rewrite rev_app_distr. reflexivity. Qed.

Lemma last_item_nonempty {A : Type} (l : list A) :
  l <> [] -> exists init x, l = init ++ [x].
Proof.
  intros H. destruct (exists_last H) as [init [x Hl]]. exists init, x. exact Hl.
Qed.

Lemma removelast_snoc {A : Type} (l : list A) (x : A) : removelast (l ++ [x]) = l.
Proof. apply removelast_last. Qed.

(** The steps of [normalize_module_name] after [relative_to], on the parts
    [init ++ [name]]. *)
Lemma normalize_module_name_parts (root init : Path) (name : string) :
  normalize_module_name (root ++ init ++ [name]) root
  = let stem := if Py.endswith name ".py" || Py.endswith name ".rs"
                then Py.rsplit1_head "." name else name in
    Ok (if Py.mem stem index_names
        then match init with
             | [] => "root"
             | _ :: _ => Py.join "/" init
             end
        else Py.join "/" (init ++ [stem])).
Proof.
  unfold normalize_module_name. rewrite relative_to_app. cbn [bind].
  rewrite last_item_app. cbn [bind].
  unfold Py.set_last, Py.but_last. rewrite removelast_snoc.
  destruct (Py.endswith name ".py" || Py.endswith name ".rs"); cbn zeta;
    rewrite last_item_app; cbn [bind];
    match goal with
    | |- context [Py.mem ?s index_names] => destruct (Py.mem s index_names)
    end; rewrite ?removelast_snoc;
    try reflexivity;
    destruct init; reflexivity.
Qed.


Lemma substring_all (s : string) : substring 0 (String.length s) s = s.
Proof. induction s as [| c s IH]; simpl; [reflexivity | rewrite IH; reflexivity]. Qed.

Lemma substring_skip (a b : string) :
  substring (String.length a) (String.length b) (a ++ b) = b.
Proof.
  induction a as [| c a IH]; simpl; [apply substring_all | exact IH].
Qed.

Lemma string_length_app (a b : string) :
  String.length (a ++ b) = String.length a + String.length b.
Proof. induction a as [| c a IH]; simpl; [reflexivity | rewrite IH; reflexivity]. Qed.

Lemma endswith_app (a b : string) : Py.endswith (a ++ b) b = true.
Proof.
  unfold Py.endswith. rewrite string_length_app.
  replace (String.length a + String.length b - String.length b)
    with (String.length a) by lia.
  rewrite substring_skip, String.eqb_refl, andb_true_r.
  apply Nat.leb_le. lia.
Qed.

Lemma substring_none (n : nat) (s : string) : substring n 0 s = "".
Proof.
  revert n. induction s as [| c s IH]; intros [| n]; simpl;
    try reflexivity. apply IH.
Qed.

Lemma endswith_empty (s : string) : Py.endswith s "" = true.
Proof. unfold Py.endswith. simpl. rewrite substring_none. reflexivity. Qed.

Lemma endswith_refl (s : string) : Py.endswith s s = true.
Proof. apply (endswith_app "" s). Qed.

(** The text before the last [sep] of [a ++ sep ++ b], for [b] without [sep]. *)
Lemma before_last_app (sep : ascii) (a b : string) :
  Py.before_last sep b = None ->
  Py.before_last sep (a ++ String sep b) = Some a.
Proof.
  intros Hb. induction a as [| c a IH]; simpl.
  - rewrite Hb, Ascii.eqb_refl. reflexivity.
  - rewrite IH. reflexivity.
Qed.

Lemma rsplit1_head_ext (name ext : string) :
  Py.before_last "." ext = None ->
  Py.rsplit1_head "." (name ++ String "." ext) = name.
Proof.
  intros H. unfold Py.rsplit1_head. rewrite before_last_app by exact H.
  reflexivity.
Qed.



(* ================================================================= *)
(** ** Resolution of a reference *)

Lemma split_nonempty (sep : ascii) (s : string) : Py.split sep s <> [].
Proof.
  destruct s as [| c s]; simpl; [discriminate |].
  destruct (c =? sep)%char; [discriminate |].
  destruct (Py.split sep s); discriminate.
Qed.

Lemma concat_cons (sep x : string) (l : list string) :
  l <> [] -> String.concat sep (x :: l) = (x ++ sep ++ String.concat sep l)%string.
Proof. destruct l; [contradiction | reflexivity]. Qed.

Lemma concat_head_char (sep : string) (c : ascii) (h : string) (t : list string) :
  String.concat sep (String c h :: t) = String c (String.concat sep (h :: t)).
Proof. destruct t; reflexivity. Qed.

Theorem join_split (sep : ascii) (s : string) :
  Py.join (String sep "") (Py.split sep s) = s.
Proof.
  unfold Py.join. induction s as [| c s IH]; simpl; [reflexivity |].
  destruct (c =? sep)%char eqn:Hc.
  - apply Ascii.eqb_eq in Hc. subst c.
    rewrite concat_cons by apply split_nonempty. rewrite IH. reflexivity.
  - destruct (Py.split sep s) as [| h t] eqn:Hsplit;
      [exfalso; exact (split_nonempty sep s Hsplit) |].
    rewrite concat_head_char, IH. reflexivity.
Qed.

(** X8. Normalizing a reference only replaces its dots by slashes: splitting
    on the slash and joining again changes nothing. *)
Theorem normalized_import_replaces_dots :
  forall imp : string, normalized_import imp = Py.replace "." "/" imp.
Proof. intros imp. unfold normalized_import. apply join_split. Qed.

Lemma resolve_import_normalized (ns : list string) (m : string) (es : list Edge)
      (imp : string) :
  resolve_import ns m es imp = match_known m (normalized_import imp) ns es.
Proof. reflexivity. Qed.

(** X9. A reference that passes the test for no node leaves the edge list as
    it is. *)
Theorem resolve_import_unmatched_adds_nothing :
  forall (ns : list string) (module_name : string) (es : list Edge)
         (imp : string),
    (forall n, In n ns -> import_matches n (normalized_import imp) = false) ->
    resolve_import ns module_name es imp = es.
Proof.
  intros ns m es imp Hno. rewrite resolve_import_normalized.
  induction ns as [| n ns IH]; simpl; [reflexivity |].
  rewrite (Hno n (or_introl eq_refl)). apply IH.
  intros n' Hn'. apply Hno. right. exact Hn'.
Qed.

(** X10. The empty reference, which the Python extractor returns for
    [import ,os], passes the test for every node: it resolves to the first
    node of the iteration order. *)
Theorem resolve_import_empty_reference :
  forall (n : string) (ns : list string) (module_name : string)
         (es : list Edge),
    extract_imports_python "import ,os" = [""]
    /\ import_matches n (normalized_import "") = true
    /\ resolve_import (n :: ns) module_name es ""
       = if (module_name =? n)%string then es else es ++ [(module_name, n)].
Proof.
  intros n ns m es.
  assert (Hm : import_matches n (normalized_import "") = true).
  { unfold import_matches. change (normalized_import "") with "".
    rewrite endswith_empty. reflexivity. }
  split; [vm_compute; reflexivity |]. split; [exact Hm |].
  rewrite resolve_import_normalized. simpl. rewrite Hm.
  destruct (m =? n)%string; reflexivity.
Qed.

(* ================================================================= *)
(** ** What a build returns *)

Lemma for_each_Raise {A S : Type} (body : S -> A -> result S) (l : list A) :
  forall s e, for_each body l s = Raise e ->
              exists x s0, In x l /\ body s0 x = Raise e.
Proof.
  induction l as [| x l IH]; intros s e H; simpl in H; [discriminate |].
  destruct (body s x) as [s1 | e1] eqn:Hb; simpl in H.
  - destruct (IH s1 e H) as [y [s0 [Hy Hr]]]. exists y, s0.
    split; [right; exact Hy | exact Hr].
  - inversion H; subst. exists x, s. split; [left; reflexivity | exact Hb].
Qed.

Lemma add_node_Raise (root : Path) (st : Py.dict Path * list string) (p : Path)
      (e : exn) :
  add_node root st p = Raise e -> normalize_module_name p root = Raise e.
Proof.
  unfold add_node. destruct st as [mm ns].
  destruct (normalize_module_name p root); simpl;
    [discriminate | intros H; inversion H; reflexivity].
Qed.

Lemma add_edges_Raise (read_file : Path -> option string) (root : Path)
      (ns : list string) (es : list Edge) (p : Path) (e : exn) :
  add_edges read_file root ns es p = Raise e ->
  normalize_module_name p root = Raise e.
Proof.
  unfold add_edges.
  destruct (normalize_module_name p root); simpl; [| intros H; inversion H; reflexivity].
  destruct (read_file p); discriminate.
Qed.

Lemma normalize_Ok_iff (p root : Path) :
  (exists m, normalize_module_name p root = Ok m)
  <-> exists rel, rel <> [] /\ p = root ++ rel.
Proof.
  split.
  - intros [m Hm]. unfold normalize_module_name in Hm.
    destruct (relative_to p root) as [rel | e] eqn:Hrel; [| discriminate].
    apply relative_to_Ok in Hrel. exists rel. split; [| exact Hrel].
    intros Hnil. subst rel. discriminate.
  - intros [rel [Hne Hp]]. subst p.
    destruct (last_item_nonempty rel Hne) as [init [name Hrel]]. subst rel.
    rewrite normalize_module_name_parts. eexists. reflexivity.
Qed.


Lemma set_add_NoDup (s : list string) (x : string) :
  NoDup s -> NoDup (Py.set_add s x).
Proof.
  intros Hnd. unfold Py.set_add. destruct (Py.mem x s) eqn:Hmem; [exact Hnd |].
  apply NoDup_app; [exact Hnd | constructor; [intros [] | constructor] |].
  intros y Hy [Heq | []]. subst y. apply mem_In in Hy. congruence.
Qed.

Lemma add_node_node_set (root : Path) (files : list Path) :
  forall st st',
    for_each (add_node root) files st = Ok st' ->
    (NoDup (snd st) -> NoDup (snd st'))
    /\ forall m, In m (snd st') <->
                 In m (snd st)
                 \/ exists p, In p files /\ normalize_module_name p root = Ok m.
Proof.
  induction files as [| q files IH]; intros [mm ns] st' Hrun; simpl in Hrun.
  - inversion Hrun; subst. split; [auto |]. intros m. split; [auto |].
    intros [H | [p [[] _]]]. exact H.
  - destruct (normalize_module_name q root) as [mq | e] eqn:Hq;
      simpl in Hrun; [| discriminate].
    destruct (IH _ _ Hrun) as [Hnd Hin]. simpl in Hnd, Hin. simpl. split.
    + intros H. apply Hnd. apply set_add_NoDup. exact H.
    + intros m. rewrite Hin, set_add_In. split.
      * intros [[H | H] | [p [Hp Hm]]].
        -- left. exact H.
        -- right. exists q. subst m. split; [left; reflexivity | exact Hq].
        -- right. exists p. split; [right; exact Hp | exact Hm].
      * intros [H | [p [[Hp | Hp] Hm]]].
        -- left. left. exact H.
        -- subst p. left. right. congruence.
        -- right. exists p. split; assumption.
Qed.

(** X12. When iterating a set visits its elements once each, the nodes of a
    built graph are pairwise different and are exactly the identifiers of the
    files. *)
Theorem build_dependency_graph_nodes :
  forall (set_iter : list string -> list string)
         (read_file : Path -> option string) (files : list Path) (root : Path)
         (graph : DependencyGraph),
    (forall l, NoDup l -> Permutation l (set_iter l)) ->
    build_dependency_graph set_iter read_file files root = Ok graph ->
    NoDup (nodes graph)
    /\ forall m, In m (nodes graph) <->
                 exists p, In p files /\ normalize_module_name p root = Ok m.
Proof.
  intros set_iter read_file files root graph Hiter Hbuild.
  destruct (build_dependency_graph_Ok _ _ _ _ _ Hbuild) as [st [Hst [Hn _]]].
  destruct (add_node_node_set root files _ _ Hst) as [Hnd Hin].
  simpl in Hnd, Hin. specialize (Hnd (NoDup_nil _)).
  assert (Hperm := Hiter _ Hnd). rewrite Hn. split.
  - exact (Permutation_NoDup Hperm Hnd).
  - intros m. split.
    + intros H. apply (Permutation_in _ (Permutation_sym Hperm)) in H.
      apply Hin in H. destruct H as [[] | H]. exact H.
    + intros H. apply (Permutation_in _ Hperm). apply Hin. right. exact H.
Qed.

Lemma imports_of_extension (p : Path) (content imp : string) :
  In imp (imports_of p content) ->
  Py.mem (Py.lower (path_suffix p)) graph_extensions = true.
Proof.
  unfold imports_of.
  destruct (Py.lower (path_suffix p) =? ".py")%string eqn:Hpy.
  - apply String.eqb_eq in Hpy. rewrite Hpy. reflexivity.
  - destruct (Py.lower (path_suffix p) =? ".rs")%string eqn:Hrs.
    + apply String.eqb_eq in Hrs. rewrite Hrs. reflexivity.
    + destruct (Py.mem (Py.lower (path_suffix p)) [".js"; ".jsx"; ".ts"; ".tsx"])
               eqn:Hjs; [| intros []].
      intros _. apply mem_In in Hjs. apply mem_In. right. right. exact Hjs.
Qed.

Lemma match_known_In (m imp_n : string) (ns : list string) (es : list Edge)
      (s t : string) :
  In (s, t) (match_known m imp_n ns es) ->
  In (s, t) es
  \/ (s = m /\ In t ns /\ import_matches t imp_n = true).
Proof.
  induction ns as [| k ns IH]; simpl; [auto |].
  destruct (import_matches k imp_n) eqn:Hk.
  - destruct (m =? k)%string; simpl; [auto |].
    intros H. apply in_app_iff in H. destruct H as [H | [H | []]]; [auto |].
    inversion H; subst. right. auto.
  - intros H. destruct (IH H) as [H' | [Hs [Ht Hm]]]; [auto |].
    right. auto.
Qed.

(** X13. Every edge of a built graph ends in a node and comes from a reference:
    its source is the identifier of a file that was read, whose extension in
    lower case is one of the six searched, and one of that file's references
    passes the test for the target. *)
Theorem build_dependency_graph_edges_from_references :
  forall (set_iter : list string -> list string)
         (read_file : Path -> option string) (files : list Path) (root : Path)
         (graph : DependencyGraph),
    build_dependency_graph set_iter read_file files root = Ok graph ->
    forall src dst,
      In (src, dst) (edges graph) ->
      In dst (nodes graph)
      /\ edge_from_reference read_file root files src dst.
Proof.
  intros set_iter read_file files root graph Hbuild.
  destruct (build_dependency_graph_Ok _ _ _ _ _ Hbuild)
    as [st [_ [_ [Hedges _]]]].
  set (ns := nodes graph) in *.
  set (P := fun es : list Edge =>
              forall src dst, In (src, dst) es ->
                In dst ns /\ edge_from_reference read_file root files src dst).
  change (P (edges graph)).
  apply (for_each_invariant P (add_edges read_file root ns) files)
    with (s := []); [| intros src dst [] | exact Hedges].
  intros es p es' Hp Hes. unfold add_edges.
  destruct (normalize_module_name p root) as [m | e] eqn:Hm; simpl;
    [| discriminate].
  destruct (read_file p) as [content |] eqn:Hread; intros H; inversion H; subst;
    [| exact Hes].
  apply for_in_invariant; [exact Hes |].
  intros es1 imp Himp Hes1 src dst Hin.
  rewrite resolve_import_normalized in Hin.
  destruct (match_known_In _ _ _ _ _ _ Hin) as [Hold | [Hs [Ht Hmatch]]].
  - exact (Hes1 src dst Hold).
  - subst src. split; [exact Ht |].
    exists p, content, imp. repeat split; try assumption.
    exact (imports_of_extension _ _ _ Himp).
Qed.

(* ================================================================= *)
(** ** What the extractors return *)

Lemma plus_loop_Some (c : Re.cls) (k : Re.mstate -> option Re.mstate)
      (grp : string) (rest : string) :
  forall pos st',
    Re.plus_loop c k grp pos rest = Some st' ->
    exists taken rest' prev,
      rest = (taken ++ rest')%string
      /\ run_of c taken
      /\ k (Re.MState (pos + String.length taken) prev rest' grp) = Some st'.
Proof.
  induction rest as [| a rest IH]; intros pos st' H; simpl in H;
    [discriminate |].
  destruct (c a) eqn:Hc; [| discriminate].
  destruct (Re.plus_loop c k grp (S pos) rest) as [st1 |] eqn:Hmore.
  - inversion H; subst st1.
    destruct (IH _ _ Hmore) as [taken [rest' [prev [Hr [[_ Hall] Hk]]]]].
    exists (String a taken), rest', prev. subst rest. simpl.
    split; [reflexivity |]. split.
    + split; [discriminate | simpl; rewrite Hc; exact Hall].
    + rewrite <- Hk. f_equal. f_equal. lia.
  - exists (String a EmptyString), rest, (Some a). simpl.
    split; [reflexivity |]. split.
    + split; [discriminate | simpl; rewrite Hc; reflexivity].
    + rewrite <- H. f_equal. f_equal. lia.
Qed.

Lemma substring_prefix (a b : string) :
  substring 0 (String.length a) (a ++ b) = a.
Proof. induction a as [| c a IH]; simpl; [destruct b |]; try reflexivity.
  rewrite IH. reflexivity. Qed.

(** The group after a pattern all of whose groups are [(c+)]: as before, or a
    non-empty run of [c]. *)
Lemma run_group (c : Re.cls) (r : Re.regex) :
  captures c r ->
  forall k st st',
    Re.run r k st = Some st' ->
    exists st1,
      k st1 = Some st'
      /\ (Re.st_group st1 = Re.st_group st \/ run_of c (Re.st_group st1))
      /\ (must_capture r -> run_of c (Re.st_group st1)).
Proof.
  induction 1 as [| | c' | c' | r Hr IH | r1 r2 H1 IH1 H2 IH2 |];
    intros k st st' Hrun; simpl in Hrun.
  - exists st. split; [exact Hrun |]. split; [left; reflexivity |].
    intros Hm. inversion Hm.
  - assert (Hk : k st = Some st').
    { destruct (Re.st_prev st) as [a |]; [| exact Hrun].
      destruct (a =? Py.nl)%char; [exact Hrun | discriminate]. }
    exists st. split; [exact Hk |]. split; [left; reflexivity |].
    intros Hm. inversion Hm.
  - destruct (Re.st_rest st) as [| a rest']; [discriminate |].
    destruct (c' a); [| discriminate].
    eexists. split; [exact Hrun |]. split; [left; reflexivity |].
    intros Hm. inversion Hm.
  - destruct (plus_loop_Some _ _ _ _ _ _ Hrun)
      as [taken [rest' [prev [_ [_ Hk]]]]].
    eexists. split; [exact Hk |]. split; [left; reflexivity |].
    intros Hm. inversion Hm.
  - destruct (Re.run r k st) as [st0 |] eqn:Hr0.
    + inversion Hrun; subst st0.
      destruct (IH _ _ _ Hr0) as [st1 [Hk [Hg _]]].
      exists st1. split; [exact Hk |]. split; [exact Hg |].
      intros Hm. inversion Hm.
    + exists st. split; [exact Hrun |]. split; [left; reflexivity |].
      intros Hm. inversion Hm.
  - destruct (IH1 _ _ _ Hrun) as [st1 [Hk1 [Hg1 Hm1]]].
    destruct (IH2 _ _ _ Hk1) as [st2 [Hk2 [Hg2 Hm2]]].
    exists st2. split; [exact Hk2 |]. split.
    + destruct Hg2 as [Hg2 | Hg2]; [| right; exact Hg2].
      rewrite Hg2. exact Hg1.
    + intros Hm. inversion Hm; subst.
      * destruct Hg2 as [Hg2 | Hg2]; [| exact Hg2].
        rewrite Hg2. apply Hm1. assumption.
      * apply Hm2. assumption.
  - destruct (plus_loop_Some _ _ _ _ _ _ Hrun)
      as [taken [rest' [prev [Hrest [Htaken Hk]]]]].
    eexists. split; [exact Hk |]. simpl.
    replace (Re.st_pos st + String.length taken - Re.st_pos st)
      with (String.length taken) by lia.
    rewrite Hrest, substring_prefix.
    split; [right; exact Htaken | intros _; exact Htaken].
Qed.

Lemma match_at_group (c : Re.cls) (r : Re.regex) (prev : option ascii)
      (pos : nat) (s : string) (m : Re.rmatch) :
  captures c r -> must_capture r ->
  Re.match_at r prev pos s = Some m -> run_of c (Re.group1 m).
Proof.
  intros Hc Hm. unfold Re.match_at.
  destruct (Re.run r Some (Re.MState pos prev s EmptyString)) as [st |] eqn:Hrun;
    [| discriminate].
  intros H. inversion H; subst. simpl.
  destruct (run_group c r Hc _ _ _ Hrun) as [st1 [Hk [_ Hg]]].
  inversion Hk; subst. apply Hg. exact Hm.
Qed.

Lemma finditer_group (c : Re.cls) (r : Re.regex) (content : string)
      (m : Re.rmatch) :
  captures c r -> must_capture r ->
  In m (Re.finditer r content) -> run_of c (Re.group1 m).
Proof.
  intros Hc Hm Hin.
  destruct (finditer_occurs _ _ _ Hin) as [before [rest [_ [_ Hat]]]].
  exact (match_at_group c r _ _ _ _ Hc Hm Hat).
Qed.

Lemma captures_Lit (c : Re.cls) (s : string) : captures c (Re.Lit s).
Proof. induction s; simpl; repeat constructor; assumption. Qed.

Ltac prove_captures :=
  repeat first [ apply captures_Lit | constructor ].

Ltac prove_must_capture :=
  repeat first [ apply must_Seq_l; apply must_Group | apply must_Seq_r ].

Lemma re_py_from_captures : captures Re.nonspace re_py_from /\ must_capture re_py_from.
Proof. unfold re_py_from, Re.cat; cbn [fold_right]; split; [prove_captures | prove_must_capture]. Qed.

Lemma re_py_import_captures :
  captures Re.nonspace re_py_import /\ must_capture re_py_import.
Proof. unfold re_py_import, Re.cat; cbn [fold_right]; split; [prove_captures | prove_must_capture]. Qed.

Lemma re_rs_use_captures : captures Re.word re_rs_use /\ must_capture re_rs_use.
Proof. unfold re_rs_use, Re.cat; cbn [fold_right]; split; [prove_captures | prove_must_capture]. Qed.

Lemma re_rs_mod_captures : captures Re.word re_rs_mod /\ must_capture re_rs_mod.
Proof. unfold re_rs_mod, Re.cat; cbn [fold_right]; split; [prove_captures | prove_must_capture]. Qed.

Lemma re_js_from_captures : captures Re.nonquote re_js_from /\ must_capture re_js_from.
Proof.
  unfold re_js_from, re_quoted_path, Re.cat; cbn [fold_right app];
    split; [prove_captures | prove_must_capture].
Qed.

Lemma re_js_require_captures :
  captures Re.nonquote re_js_require /\ must_capture re_js_require.
Proof.
  unfold re_js_require, re_quoted_path, Re.cat; cbn [fold_right app];
    split; [prove_captures | prove_must_capture].
Qed.

Lemma all_chars_first_piece (c : Re.cls) (sep : ascii) (s : string) :
  all_chars c s = true ->
  all_chars c (hd EmptyString (Py.split sep s)) = true.
Proof.
  induction s as [| a s IH]; simpl; [reflexivity |].
  intros H. apply andb_true_iff in H. destruct H as [Ha Hs].
  destruct (a =? sep)%char; [reflexivity |].
  specialize (IH Hs). destruct (Py.split sep s) as [| h t]; simpl in *.
  - rewrite Ha. reflexivity.
  - rewrite Ha, IH. reflexivity.
Qed.

(** X14. Every reference the Rust extractor returns is a non-empty run of word
    characters. *)
Theorem extract_imports_rust_identifiers :
  forall content ref : string,
    In ref (extract_imports_rust content) -> run_of Re.word ref.
Proof.
  intros content ref. rewrite extract_imports_rust_runs, in_app_iff, !in_map_iff.
  intros [[m [Href Hm]] | [m [Href Hm]]]; subst ref.
  - exact (finditer_group _ _ _ _ (proj1 re_rs_use_captures)
             (proj2 re_rs_use_captures) Hm).
  - exact (finditer_group _ _ _ _ (proj1 re_rs_mod_captures)
             (proj2 re_rs_mod_captures) Hm).
Qed.

(** X15. Every reference the JavaScript extractor returns is non-empty, holds no
    quote character and does not start with [@]. *)
Theorem extract_imports_js_paths :
  forall content ref : string,
    In ref (extract_imports_js content) ->
    run_of Re.nonquote ref /\ Py.startswith ref "@" = false.
Proof.
  intros content ref. rewrite extract_imports_js_runs, in_app_iff, !in_map_iff.
  intros [[m [Href Hm]] | [m [Href Hm]]]; subst ref;
    apply filter_In in Hm; destruct Hm as [Hm Hkept]; split.
  - exact (finditer_group _ _ _ _ (proj1 re_js_from_captures)
             (proj2 re_js_from_captures) Hm).
  - unfold js_from_kept in Hkept. apply andb_true_iff in Hkept.
    destruct Hkept as [Hat _]. apply negb_true_iff in Hat. exact Hat.
  - exact (finditer_group _ _ _ _ (proj1 re_js_require_captures)
             (proj2 re_js_require_captures) Hm).
  - unfold js_require_kept in Hkept. apply negb_true_iff in Hkept. exact Hkept.
Qed.

(** X16. No reference the Python extractor returns holds a whitespace
    character. *)
Theorem extract_imports_python_no_whitespace :
  forall content ref : string,
    In ref (extract_imports_python content) ->
    all_chars Re.nonspace ref = true.
Proof.
  intros content ref.
  rewrite extract_imports_python_runs, in_app_iff, !in_map_iff.
  intros [[m [Href Hm]] | [m [Href Hm]]]; subst ref.
  - exact (proj2 (finditer_group _ _ _ _ (proj1 re_py_from_captures)
                    (proj2 re_py_from_captures) Hm)).
  - unfold python_import_name. apply all_chars_first_piece.
    apply all_chars_first_piece.
    exact (proj2 (finditer_group _ _ _ _ (proj1 re_py_import_captures)
                    (proj2 re_py_import_captures) Hm)).
Qed.

(* ================================================================= *)
(** ** The diagram for any bound *)

Lemma to_uint_not_Nil (n : nat) : Nat.to_uint n <> Decimal.Nil.
Proof.
  intros Hnil. assert (Hn : n = 0).
  { rewrite <- (Unsigned.of_to n), Hnil. reflexivity. }
  subst n. discriminate Hnil.
Qed.

Lemma str_of_nat_inj (i j : nat) : Py.str_of_nat i = Py.str_of_nat j -> i = j.
Proof.
  unfold Py.str_of_nat. intros H.
  apply (f_equal NilZero.uint_of_string) in H.
  rewrite !NilZero.usu in H by apply to_uint_not_Nil.
  inversion H as [Heq]. apply Unsigned.to_uint_inj. exact Heq.
Qed.

Lemma NoDup_slice_to {A : Type} (l : list A) (k : Z) :
  NoDup l -> NoDup (Py.slice_to l k).
Proof.
  intros H. unfold Py.slice_to. destruct (k <? 0)%Z; apply NoDup_firstn; exact H.
Qed.

Lemma mermaid_node_ids_slice (graph : DependencyGraph) (max_nodes : Z) :
  NoDup (nodes graph) ->
  mermaid_node_ids graph max_nodes
  = ids_of (Py.slice_to (nodes graph) max_nodes).
Proof.
  intros Hnd. unfold mermaid_node_ids. rewrite node_ids_loop.
  - reflexivity.
  - unfold enumerate. rewrite map_snd_combine_seq.
    apply NoDup_slice_to. exact Hnd.
  - intros p _ [].
Qed.

Lemma dict_has_ids_of (selected : list string) (s : string) :
  Py.dict_has (ids_of selected) s = Py.mem s selected.
Proof.
  destruct (Py.mem s selected) eqn:Hmem.
  - apply dict_has_keys. rewrite ids_of_keys. apply mem_In. exact Hmem.
  - destruct (Py.dict_has (ids_of selected) s) eqn:Hhas; [| reflexivity].
    apply dict_has_keys in Hhas. rewrite ids_of_keys in Hhas.
    apply mem_In in Hhas. congruence.
Qed.

Lemma mermaid_style_count (selected : list string) (circ : list Edge) :
  forall lines : list string,
    for_in circ lines (fun lines e =>
                         let '(src, dst) := e in
                         if Py.dict_has (ids_of selected) src
                            && Py.dict_has (ids_of selected) dst
                         then lines ++ [link_style_line] else lines)
    = lines ++ repeat link_style_line
                 (List.length (filter (both_selected selected) circ)).
Proof.
  unfold for_in.
  induction circ as [| [src dst] circ IH]; intros lines; cbn [fold_left filter].
  - simpl. rewrite app_nil_r. reflexivity.
  - rewrite !dict_has_ids_of. unfold both_selected at 1. cbn [fst snd].
    destruct (Py.mem src selected && Py.mem dst selected).
    + rewrite IH, <- app_assoc. reflexivity.
    + apply IH.
Qed.

Lemma slice_to_negative {A : Type} (l : list A) (k : Z) :
  (k < 0)%Z ->
  Py.slice_to l k = firstn (List.length l - Z.to_nat (- k)) l.
Proof.
  intros Hk. unfold Py.slice_to.
  destruct (k <? 0)%Z eqn:Hneg; [| apply Z.ltb_ge in Hneg; lia].
  f_equal. lia.
Qed.

(** X17. For every integer [max_nodes] the diagram is the header, a declaration
    for each node of the slice [nodes[:max_nodes]], a connection line for each
    different edge between those nodes, one style line for each circular pair
    between them, and the footer; a negative [max_nodes] selects all the nodes
    but the last [|max_nodes|]. *)
Theorem generate_mermaid_lines_any_bound :
  forall (graph : DependencyGraph) (max_nodes : Z),
    NoDup (nodes graph) ->
    let selected := Py.slice_to (nodes graph) max_nodes in
    exists pairs : list Edge,
      generate_mermaid_lines graph max_nodes
      = mermaid_header
          ++ map (fun p => node_decl_line (fst p) (snd p)) (ids_of selected)
          ++ map (edge_line_of (ids_of selected)) pairs
          ++ repeat link_style_line
               (List.length (filter (both_selected selected) (circular graph)))
          ++ mermaid_footer
      /\ NoDup pairs
      /\ (forall src dst,
            In (src, dst) pairs <->
            In (src, dst) (edges graph) /\ In src selected /\ In dst selected)
      /\ ((max_nodes < 0)%Z ->
          selected
          = firstn (List.length (nodes graph) - Z.to_nat (- max_nodes))
                   (nodes graph)).
Proof.
  intros graph max_nodes Hnd selected.
  unfold generate_mermaid_lines.
  rewrite (mermaid_node_ids_slice graph max_nodes Hnd).
  fold selected. set (ids := ids_of selected).
  rewrite mermaid_decl_loop.
  set (lines1 := mermaid_header ++ _).
  destruct (mermaid_edge_loop ids (edges graph) lines1 [] (NoDup_nil _))
    as [pairs [Hrun [Hpairs Hchar]]].
  unfold mermaid_edge_step in Hrun. cbv zeta in Hrun.
  exists pairs. split; [| split; [exact Hpairs | split]].
  - rewrite Hrun. unfold ids. rewrite mermaid_style_count.
    unfold lines1. rewrite <- !app_assoc. reflexivity.
  - intros src dst. rewrite (Hchar (src, dst)). unfold has_ids, ids.
    rewrite ids_of_keys. simpl. tauto.
  - intros Hneg. apply slice_to_negative. exact Hneg.
Qed.

(** X18. The identifiers given to the selected nodes are pairwise different. *)
Theorem mermaid_node_ids_distinct :
  forall (graph : DependencyGraph) (max_nodes : Z),
    NoDup (nodes graph) ->
    NoDup (map snd (mermaid_node_ids graph max_nodes))
    /\ map fst (mermaid_node_ids graph max_nodes)
       = Py.slice_to (nodes graph) max_nodes.
Proof.
  intros graph max_nodes Hnd. rewrite mermaid_node_ids_slice by exact Hnd.
  split; [| apply ids_of_keys].
  unfold ids_of, enumerate. rewrite map_map. simpl.
  generalize (Py.slice_to (nodes graph) max_nodes). intros l.
  assert (Hmap : forall start,
             map (fun p : nat * string => node_id_of (fst p))
                 (combine (seq start (List.length l)) l)
             = map node_id_of (seq start (List.length l))).
  { induction l as [| x l IH]; intros start; simpl; [reflexivity |].
    rewrite IH. reflexivity. }
  rewrite Hmap. apply Finite.Injective_map_NoDup; [| apply seq_NoDup].
  intros i j H. unfold node_id_of in H. inversion H as [Heq].
  apply str_of_nat_inj. exact Heq.
Qed.

(** X19. The label of a declaration holds no double quote, is as long as the
    node's name, and is that name when the name holds no double quote. *)
Theorem node_label_has_no_double_quote :
  forall node : string,
    all_chars (fun c => negb (c =? Py.dquote)%char)
              (Py.replace Py.dquote Py.squote node) = true
    /\ String.length (Py.replace Py.dquote Py.squote node) = String.length node
    /\ (all_chars (fun c => negb (c =? Py.dquote)%char) node = true ->
        Py.replace Py.dquote Py.squote node = node).
Proof.
  intros node. unfold Py.replace.
  induction node as [| c node [IH1 [IH2 IH3]]]; simpl.
  - repeat split.
  - split; [| split].
    + rewrite IH1, andb_true_r.
      destruct (c =? Py.dquote)%char eqn:Hc; [reflexivity | rewrite Hc; reflexivity].
    + rewrite IH2. reflexivity.
    + intros H. apply andb_true_iff in H. destruct H as [Hc Hrest].
      apply negb_true_iff in Hc. rewrite Hc, (IH3 Hrest). reflexivity.
Qed.

(* ================================================================= *)
(** ** Rankings and totals *)

Lemma insert_by_sorted (x : string * nat) (l : list (string * nat)) :
  StronglySorted ranks_before l ->
  StronglySorted ranks_before (insert_by neg_count x l).
Proof.
  induction l as [| y l IH]; simpl; intros Hs.
  - constructor; [constructor | constructor].
  - inversion Hs as [| ? ? Hrest Hall]; subst.
    destruct (neg_count x <=? neg_count y)%Z eqn:Hle.
    + apply Z.leb_le in Hle. unfold neg_count in Hle.
      constructor; [exact Hs |].
      constructor; [unfold ranks_before; lia |].
      rewrite Forall_forall in *. intros z Hz. specialize (Hall z Hz).
      unfold ranks_before in *. lia.
    + apply Z.leb_gt in Hle. unfold neg_count in Hle.
      constructor; [apply IH; exact Hrest |].
      rewrite Forall_forall in *. intros z Hz.
      apply insert_by_In in Hz. destruct Hz as [Hz | Hz].
      * subst z. unfold ranks_before. lia.
      * exact (Hall z Hz).
Qed.

Lemma sorted_sorted (l : list (string * nat)) :
  StronglySorted ranks_before (sorted neg_count l).
Proof.
  unfold sorted. induction l as [| x l IH]; simpl; [constructor |].
  apply insert_by_sorted. exact IH.
Qed.

Lemma insert_by_Permutation {A : Type} (key : A -> Z) (x : A) (l : list A) :
  Permutation (x :: l) (insert_by key x l).
Proof.
  induction l as [| y l IH]; simpl; [reflexivity |].
  destruct (key x <=? key y)%Z; [reflexivity |].
  rewrite perm_swap. constructor. exact IH.
Qed.

Lemma sorted_Permutation {A : Type} (key : A -> Z) (l : list A) :
  Permutation l (sorted key l).
Proof.
  unfold sorted. induction l as [| x l IH]; simpl; [reflexivity |].
  rewrite <- insert_by_Permutation. constructor. exact IH.
Qed.

Lemma StronglySorted_firstn {A : Type} (R : A -> A -> Prop) (n : nat) (l : list A) :
  StronglySorted R l -> StronglySorted R (firstn n l).
Proof.
  revert n. induction l as [| x l IH]; intros [| n] Hs; simpl;
    try constructor.
  - inversion Hs; subst. apply IH. assumption.
  - inversion Hs as [| ? ? _ Hall]; subst. rewrite Forall_forall in *.
    intros y Hy. apply Hall. exact (In_firstn _ _ _ Hy).
Qed.

Lemma StronglySorted_filter {A : Type} (R : A -> A -> Prop) (f : A -> bool)
      (l : list A) :
  StronglySorted R l -> StronglySorted R (filter f l).
Proof.
  induction l as [| x l IH]; simpl; intros Hs; [constructor |].
  inversion Hs as [| ? ? Hrest Hall]; subst.
  destruct (f x); [| exact (IH Hrest)].
  constructor; [exact (IH Hrest) |].
  rewrite Forall_forall in *. intros y Hy. apply filter_In in Hy.
  apply Hall. apply Hy.
Qed.

Lemma sorted_prefix_dominates {A : Type} (R : A -> A -> Prop) (n : nat)
      (l : list A) (p q : A) :
  StronglySorted R l -> In p (firstn n l) -> In q (skipn n l) -> R p q.
Proof.
  revert n. induction l as [| x l IH]; intros [| n] Hs Hp Hq; simpl in *;
    try contradiction.
  inversion Hs as [| ? ? Hrest Hall]; subst.
  destruct Hp as [Hp | Hp].
  - subst p. rewrite Forall_forall in Hall. apply Hall.
    rewrite <- (firstn_skipn n l). apply in_app_iff. right. exact Hq.
  - exact (IH n Hrest Hp Hq).
Qed.

Lemma Permutation_filter_keep {A : Type} (f : A -> bool) (l l' : list A) :
  Permutation l l' -> Permutation (filter f l) (filter f l').
Proof.
  induction 1 as [| x l l' _ IH | x y l | l l' l'' _ IH1 _ IH2]; simpl.
  - constructor.
  - destruct (f x); [constructor |]; exact IH.
  - destruct (f x), (f y); try reflexivity. apply perm_swap.
  - exact (Permutation_trans IH1 IH2).
Qed.

(** In a ranking order, cutting and then dropping the zero counts gives what
    dropping and then cutting gives. *)
Lemma filter_firstn_ranked (n : nat) (l : list (string * nat)) :
  StronglySorted ranks_before l ->
  filter (fun p => (0 <? snd p)%nat) (firstn n l)
  = firstn n (filter (fun p => (0 <? snd p)%nat) l).
Proof.
  revert n. induction l as [| x l IH]; intros [| n] Hs; simpl;
    try reflexivity.
  inversion Hs as [| ? ? Hrest Hall]; subst.
  destruct (0 <? snd x)%nat eqn:Hx; simpl.
  - rewrite (IH n Hrest). reflexivity.
  - apply Nat.ltb_ge in Hx.
    rewrite Forall_forall in Hall.
    assert (Hnone : forall l', incl l' l ->
               filter (fun p : string * nat => (0 <? snd p)%nat) l' = []).
    { intros l' Hincl. induction l' as [| y l' IHl']; simpl; [reflexivity |].
      assert (Hy : snd y <= snd x)
        by (apply (Hall y), Hincl; left; reflexivity).
      destruct (0 <? snd y)%nat eqn:Hpos;
        [apply Nat.ltb_lt in Hpos; lia |].
      apply IHl'. intros z Hz. apply Hincl. right. exact Hz. }
    rewrite (Hnone l (incl_refl l)).
    rewrite (Hnone (firstn n l)); [destruct n; reflexivity |].
    intros z Hz. exact (In_firstn _ _ _ Hz).
Qed.

(** X20. A ranking is in non-increasing count; no entry of the map that it
    leaves out has a higher count than an entry it shows; and when the map has
    at most ten positive counts every one of them is shown. *)
Theorem presented_ranks_highest_counts :
  forall counts : Py.dict nat,
    StronglySorted ranks_before (presented counts)
    /\ (forall p q,
          In p (presented counts) -> In q counts ->
          ~ In q (presented counts) -> snd q <= snd p)
    /\ (List.length (filter (fun p => (0 <? snd p)%nat) counts) <= 10 ->
        forall q, In q counts -> 0 < snd q -> In q (presented counts)).
Proof.
  intros counts. rewrite presented_filter.
  fold neg_count. set (l := sorted neg_count counts).
  assert (Hsorted : StronglySorted ranks_before l) by apply sorted_sorted.
  assert (Hperm : Permutation counts l) by apply sorted_Permutation.
  split; [| split].
  - apply StronglySorted_filter. apply StronglySorted_firstn. exact Hsorted.
  - intros p q Hp Hq Hnot. apply filter_In in Hp. destruct Hp as [Hp Hpos].
    apply (Permutation_in _ Hperm) in Hq.
    rewrite <- (firstn_skipn 10 l) in Hq. apply in_app_iff in Hq.
    destruct Hq as [Hq | Hq].
    + destruct (0 <? snd q)%nat eqn:Hqpos.
      * exfalso. apply Hnot. apply filter_In. split; assumption.
      * apply Nat.ltb_ge in Hqpos. lia.
    + exact (sorted_prefix_dominates ranks_before 10 l p q Hsorted Hp Hq).
  - intros Hfew q Hq Hpos.
    rewrite (filter_firstn_ranked 10 l Hsorted).
    rewrite firstn_all2.
    + apply filter_In. split; [exact (Permutation_in _ Hperm Hq) |].
      apply Nat.ltb_lt. exact Hpos.
    + rewrite <- (Permutation_length
                    (Permutation_filter_keep
                       (fun p => (0 <? snd p)%nat) _ _ Hperm)).
      exact Hfew.
Qed.

Lemma bump_total (d : Py.dict nat) (k : string) :
  dict_total (bump d k) = S (dict_total d).
Proof.
  unfold bump, dict_total, Py.dict_get.
  induction d as [| [k0 v0] d IH]; simpl; [reflexivity |].
  destruct (k0 =? k)%string; simpl; [lia |].
  rewrite IH. lia.
Qed.

Lemma zeroes_total (ns : list string) :
  dict_total (for_in ns [] (fun d node => Py.dict_set d node 0)) = 0.
Proof.
  apply (for_in_invariant (fun d : Py.dict nat => dict_total d = 0));
    [reflexivity |].
  intros d n _ Hd. unfold dict_total in *.
  induction d as [| [k0 v0] d IH]; simpl in *; [reflexivity |].
  destruct (k0 =? n)%string; simpl; [lia |].
  rewrite IH; lia.
Qed.

Lemma bumps_total (sel : Edge -> string) (es : list Edge) :
  forall d,
    dict_total (for_in es d (fun d e => bump d (sel e)))
    = dict_total d + List.length es.
Proof.
  unfold for_in. induction es as [| e es IH]; intros d; simpl; [lia |].
  rewrite IH, bump_total. lia.
Qed.

(** X21. The counts of [incoming] add up to the number of edges, and so do the
    counts of [outgoing]. *)
Theorem connectivity_totals :
  forall graph : DependencyGraph,
    dict_total (incoming_of graph) = List.length (edges graph)
    /\ dict_total (outgoing_of graph) = List.length (edges graph).
Proof.
  intros graph. unfold incoming_of, outgoing_of.
  rewrite connectivity_split. simpl.
  rewrite !bumps_total, zeroes_total. split; reflexivity.
Qed.


Lemma dict_set_known_key {V : Type} (d : Py.dict V) (k : string) (v : V) :
  In k (map fst d) -> map fst (Py.dict_set d k v) = map fst d.
Proof.
  induction d as [| [k0 v0] d IH]; simpl; [intros [] |].
  destruct (k0 =? k)%string eqn:H0; simpl; [reflexivity |].
  intros [Heq | Hin].
  - subst k0. rewrite String.eqb_refl in H0. discriminate.
  - rewrite (IH Hin). reflexivity.
Qed.

Lemma zeroes_keys (ns : list string) :
  NoDup ns ->
  map fst (for_in ns [] (fun d node => Py.dict_set d node 0)) = ns.
Proof.
  intros Hnd.
  assert (Hgen : forall d : Py.dict nat,
             (forall n, In n ns -> ~ In n (map fst d)) ->
             map fst (for_in ns d (fun d node => Py.dict_set d node 0))
             = map fst d ++ ns).
  { unfold for_in. induction ns as [| n ns IH]; intros d Hfresh; simpl.
    - rewrite app_nil_r. reflexivity.
    - inversion Hnd as [| ? ? Hn Hrest]; subst.
      rewrite dict_set_fresh by (apply Hfresh; left; reflexivity).
      rewrite (IH Hrest).
      + rewrite map_app, <- app_assoc. reflexivity.
      + intros n' Hn' Hin. rewrite map_app, in_app_iff in Hin. simpl in Hin.
        destruct Hin as [Hin | [Heq | []]].
        * apply (Hfresh n'); [right; exact Hn' | exact Hin].
        * subst n'. contradiction. }
  rewrite Hgen; [reflexivity | intros n _ []].
Qed.

(** X22. For a graph whose edges join nodes, the keys of both maps are the
    nodes, in the iteration order of the node set. *)
Theorem connectivity_keys_are_nodes :
  forall graph : DependencyGraph,
    NoDup (nodes graph) ->
    (forall src dst, In (src, dst) (edges graph) ->
                     In src (nodes graph) /\ In dst (nodes graph)) ->
    map fst (incoming_of graph) = nodes graph
    /\ map fst (outgoing_of graph) = nodes graph.
Proof.
  intros graph Hnd Hclosed. unfold incoming_of, outgoing_of.
  rewrite connectivity_split. simpl.
  assert (Hgen : forall (sel : Edge -> string) (es : list Edge) (d : Py.dict nat),
             (forall e, In e es -> In (sel e) (map fst d)) ->
             map fst (for_in es d (fun d e => bump d (sel e))) = map fst d).
  { intros sel es. unfold for_in.
    induction es as [| e es IH]; intros d Hin; simpl; [reflexivity |].
    assert (Hkeys : map fst (bump d (sel e)) = map fst d).
    { unfold bump. apply dict_set_known_key. apply Hin. left. reflexivity. }
    rewrite IH; [exact Hkeys |].
    intros e' He'. rewrite Hkeys. apply Hin. right. exact He'. }
  rewrite !Hgen, (zeroes_keys _ Hnd).
  - split; reflexivity.
  - intros [s t] He. rewrite (zeroes_keys _ Hnd). exact (proj1 (Hclosed s t He)).
  - intros [s t] He. rewrite (zeroes_keys _ Hnd). exact (proj2 (Hclosed s t He)).
Qed.

(* ================================================================= *)
(** ** Instances *)

Ltac prove_NoDup :=
  repeat (constructor; [simpl; intros H; intuition discriminate |]);
  constructor.



Lemma resolve_import_unmatched_adds_nothing_witness :
  import_matches "core/io" (normalized_import "requests") = false
  /\ import_matches "a/utils" (normalized_import "requests") = false
  /\ resolve_import ["core/io"; "a/utils"] "core/io" [("core/io", "a/utils")]
       "requests"
     = [("core/io", "a/utils")].
Proof.
  split; [reflexivity |]. split; [reflexivity |].
  apply (resolve_import_unmatched_adds_nothing ["core/io"; "a/utils"]).
  intros n [<- | [<- | []]]; reflexivity.
Defined.

Lemma self_import_build :
  build_dependency_graph insertion_order Example.self_import_fs
    [Example.file_a; Example.file_b] Example.root
  = Ok Example.self_import_graph.
Proof. vm_compute. reflexivity. Qed.

Lemma build_dependency_graph_nodes_witness :
  build_dependency_graph insertion_order Example.self_import_fs
    [Example.file_a; Example.file_b] Example.root
  = Ok Example.self_import_graph
  /\ NoDup (nodes Example.self_import_graph)
  /\ forall m, In m (nodes Example.self_import_graph) <->
               exists p, In p [Example.file_a; Example.file_b]
                         /\ normalize_module_name p Example.root = Ok m.
Proof.
  split; [exact self_import_build |].
  exact (build_dependency_graph_nodes insertion_order Example.self_import_fs
           [Example.file_a; Example.file_b] Example.root Example.self_import_graph
           (fun l _ => Permutation_refl l) self_import_build).
Defined.

Lemma build_dependency_graph_edges_from_references_witness :
  In ("a", "b") (edges Example.self_import_graph)
  /\ In "b" (nodes Example.self_import_graph)
  /\ edge_from_reference Example.self_import_fs Example.root
       [Example.file_a; Example.file_b] "a" "b".
Proof.
  assert (Hin : In ("a", "b") (edges Example.self_import_graph))
    by (left; reflexivity).
  split; [exact Hin |].
  exact (build_dependency_graph_edges_from_references insertion_order
           Example.self_import_fs [Example.file_a; Example.file_b] Example.root
           Example.self_import_graph self_import_build "a" "b" Hin).
Defined.

Lemma extract_imports_rust_identifiers_witness :
  In "foo" (extract_imports_rust "use crate::foo::bar;")
  /\ run_of Re.word "foo".
Proof.
  assert (Hin : In "foo" (extract_imports_rust "use crate::foo::bar;"))
    by (vm_compute; left; reflexivity).
  split; [exact Hin |].
  exact (extract_imports_rust_identifiers _ _ Hin).
Defined.

Lemma extract_imports_js_paths_witness :
  In "a/b" (extract_imports_js "import x from './a/b'")
  /\ run_of Re.nonquote "a/b" /\ Py.startswith "a/b" "@" = false.
Proof.
  assert (Hin : In "a/b" (extract_imports_js "import x from './a/b'"))
    by (vm_compute; left; reflexivity).
  split; [exact Hin |].
  exact (extract_imports_js_paths _ _ Hin).
Defined.

Lemma extract_imports_python_no_whitespace_witness :
  In "os" (extract_imports_python "import os, sys")
  /\ all_chars Re.nonspace "os" = true.
Proof.
  assert (Hin : In "os" (extract_imports_python "import os, sys"))
    by (vm_compute; left; reflexivity).
  split; [exact Hin |].
  exact (extract_imports_python_no_whitespace _ _ Hin).
Defined.

Lemma complete5_NoDup : NoDup (nodes Example.complete5).
Proof. simpl. unfold Example.five_nodes. prove_NoDup. Qed.

Lemma generate_mermaid_lines_any_bound_witness :
  Py.slice_to (nodes Example.complete5) (-3) = ["A"; "B"]
  /\ exists pairs : list Edge,
      generate_mermaid_lines Example.complete5 (-3)
      = mermaid_header
          ++ map (fun p => node_decl_line (fst p) (snd p))
                 (ids_of (Py.slice_to (nodes Example.complete5) (-3)))
          ++ map (edge_line_of
                    (ids_of (Py.slice_to (nodes Example.complete5) (-3)))) pairs
          ++ repeat link_style_line
               (List.length
                  (filter (both_selected
                             (Py.slice_to (nodes Example.complete5) (-3)))
                          (circular Example.complete5)))
          ++ mermaid_footer
      /\ NoDup pairs
      /\ (forall src dst,
            In (src, dst) pairs <->
            In (src, dst) (edges Example.complete5)
            /\ In src (Py.slice_to (nodes Example.complete5) (-3))
            /\ In dst (Py.slice_to (nodes Example.complete5) (-3)))
      /\ ((-3 < 0)%Z ->
          Py.slice_to (nodes Example.complete5) (-3)
          = firstn (List.length (nodes Example.complete5) - Z.to_nat (- -3))
                   (nodes Example.complete5)).
Proof.
  split; [reflexivity |].
  exact (generate_mermaid_lines_any_bound Example.complete5 (-3)
           complete5_NoDup).
Defined.

Lemma mermaid_node_ids_distinct_witness :
  map snd (mermaid_node_ids Example.complete5 3) = ["N0"; "N1"; "N2"]
  /\ NoDup (map snd (mermaid_node_ids Example.complete5 3))
  /\ map fst (mermaid_node_ids Example.complete5 3)
     = Py.slice_to (nodes Example.complete5) 3.
Proof.
  split; [reflexivity |].
  exact (mermaid_node_ids_distinct Example.complete5 3 complete5_NoDup).
Defined.

Lemma connectivity_keys_are_nodes_witness :
  map fst (incoming_of Example.chain) = ["A"; "B"; "C"]
  /\ map fst (outgoing_of Example.chain) = ["A"; "B"; "C"].
Proof.
  apply (connectivity_keys_are_nodes Example.chain).
  - simpl. prove_NoDup.
  - simpl. intros src dst H.
    repeat (destruct H as [H | H]; [inversion H; subst; simpl; auto 6 |]).
    contradiction.
Defined.

(* ================================================================= *)
(** ** The edge list, file by file *)

Lemma match_known_appends (m imp_n : string) (ns : list string) (es : list Edge) :
  match_known m imp_n ns es = es ++ match_known m imp_n ns []
  /\ List.length (match_known m imp_n ns []) <= 1.
Proof.
  induction ns as [| k ns [IH1 IH2]]; simpl.
  - rewrite app_nil_r. split; [reflexivity | lia].
  - destruct (import_matches k imp_n); [| split; assumption].
    destruct (m =? k)%string; simpl.
    + rewrite app_nil_r. split; [reflexivity | lia].
    + split; [reflexivity | lia].
Qed.

Lemma resolve_imports_append (ns : list string) (m : string)
      (imports : list string) :
  forall es,
    for_in imports es (resolve_import ns m)
    = es ++ flat_map (fun imp => resolve_import ns m [] imp) imports.
Proof.
  unfold for_in. induction imports as [| imp imports IH]; intros es; simpl.
  - rewrite app_nil_r. reflexivity.
  - rewrite IH. rewrite !resolve_import_normalized.
    rewrite (proj1 (match_known_appends m (normalized_import imp) ns es)).
    rewrite <- app_assoc. reflexivity.
Qed.

Lemma add_edges_appends (read_file : Path -> option string) (root : Path)
      (ns : list string) (es es' : list Edge) (p : Path) :
  add_edges read_file root ns es p = Ok es' ->
  es' = es ++ file_edges read_file root ns p.
Proof.
  unfold add_edges, file_edges.
  destruct (normalize_module_name p root) as [m | e]; simpl; [| discriminate].
  destruct (read_file p) as [content |]; intros H; inversion H; subst.
  - apply resolve_imports_append.
  - rewrite app_nil_r. reflexivity.
Qed.

(** X23. The edge list of a built graph is the concatenation, in file order, of
    what each file adds for the node set, whatever the other files hold; a
    reference adds at most one edge. *)
Theorem build_dependency_graph_edges_by_file :
  forall (set_iter : list string -> list string)
         (read_file : Path -> option string) (files : list Path) (root : Path)
         (graph : DependencyGraph),
    build_dependency_graph set_iter read_file files root = Ok graph ->
    edges graph = flat_map (file_edges read_file root (nodes graph)) files
    /\ forall module_name imp,
        List.length (resolve_import (nodes graph) module_name [] imp) <= 1.
Proof.
  intros set_iter read_file files root graph Hbuild.
  destruct (build_dependency_graph_Ok _ _ _ _ _ Hbuild)
    as [st [_ [_ [Hedges _]]]].
  set (ns := nodes graph) in *. split.
  - assert (Hgen : forall l es es',
               for_each (add_edges read_file root ns) l es = Ok es' ->
               es' = es ++ flat_map (file_edges read_file root ns) l).
    { induction l as [| p l IH]; intros es es' Hrun; simpl in Hrun.
      - inversion Hrun; subst. simpl. rewrite app_nil_r. reflexivity.
      - destruct (add_edges read_file root ns es p) as [es1 | e] eqn:Hp;
          simpl in Hrun; [| discriminate].
        rewrite (IH _ _ Hrun), (add_edges_appends _ _ _ _ _ _ Hp).
        simpl. rewrite <- app_assoc. reflexivity. }
    exact (Hgen files [] (edges graph) Hedges).
  - intros m imp. rewrite resolve_import_normalized.
    exact (proj2 (match_known_appends m (normalized_import imp) ns [])).
Qed.

Lemma build_dependency_graph_edges_by_file_witness :
  edges Example.self_import_graph
  = flat_map (file_edges Example.self_import_fs Example.root
                (nodes Example.self_import_graph))
             [Example.file_a; Example.file_b]
  /\ forall module_name imp,
      List.length (resolve_import (nodes Example.self_import_graph) module_name [] imp)
      <= 1.
Proof.
  exact (build_dependency_graph_edges_by_file insertion_order
           Example.self_import_fs [Example.file_a; Example.file_b] Example.root
           Example.self_import_graph self_import_build).
Defined.
